(** * dkulib.parallelizer: a functional model of [DataFrameParallelizer]

    The development embeds [src/dkulib/parallelizer/parallelizer.py].

    - Python values are a small inductive type; a row of a table is a
      dictionary from column names to values ([gmap string value]).
    - A call that may raise returns an [outcome]: [Return v] or [Raise e].
    - The thread pool is modelled by its only observable effect on the
      result of [run]: the order in which [as_completed] hands the futures
      back, which is not the order in which the units complete.  That
      order is an explicit argument of [run] (a list of unit indices);
      every theorem about [run] quantifies over it.
    - Logging, the progress bar and the timer have no effect on the value
      returned and are left out.
    - [generate_unique], imported from [dkulib.io_utils], is not part of the
      sources at hand and is modelled from the spec.
    - Module [Store] is a second model of the wrapper, with object identity:
      the mutable objects of the table live in a store.  It is used for the
      one property that is about in-place updates.

    The definitions come first ([Parallelizer], [Store], the vocabulary of
    the properties and the examples), then the lemmas and the theorems of
    the claims C1 to C10, the further properties of the code X1 to X17,
    and both on the examples. *)

From stdpp Require Import base option list strings pretty gmap fin_maps.

Open Scope string_scope.
Open Scope list_scope.
Open Scope nat_scope.

(** ** Python values *)

(** Cell values of a table and responses of the user function.  [VNaN] is
    the float [nan] that pandas uses for a missing cell. *)
Inductive value :=
  | VNone
  | VNaN
  | VBool (b : bool)
  | VInt (z : Z)
  | VStr (s : string).

Global Instance value_eq_dec : EqDecision value.
Proof. solve_decision. Defined.

(** [bool(v)] *)
Definition truthy (v : value) : bool :=
  match v with
  | VNone => false
  | VNaN => true
  | VBool b => b
  | VInt z => negb (bool_decide (z = 0%Z))
  | VStr s => negb (bool_decide (s = ""))
  end.

(** [str(v)] *)
Definition py_str (v : value) : string :=
  match v with
  | VNone => "None"
  | VNaN => "nan"
  | VBool true => "True"
  | VBool false => "False"
  | VInt z => pretty z
  | VStr s => s
  end.

(** [", ".join(l)] *)
Fixpoint join (sep : string) (l : list string) : string :=
  match l with
  | [] => ""
  | [s] => s
  | s :: l' => s +:+ sep +:+ join sep l'
  end.

(** A row of a table, as produced by [Series.to_dict()]. *)
Abbreviation Row := (gmap string value).

(** ** Exceptions and outcomes *)

(** An exception is described by what the code observes of it:
    [type(error).__qualname__], the name of [inspect.getmodule(error)] when
    there is one, the classes it is an instance of (fully qualified, used by
    the [except] clause), [str(error)] and [str(error.args)]. *)
Record exn := Exn {
  exn_qualname : string;
  exn_module : option string;
  exn_mro : list string;
  exn_str : string;
  exn_args : string;
}.

Global Instance exn_eq_dec : EqDecision exn.
Proof. solve_decision. Defined.

Inductive outcome (A : Type) :=
  | Return (a : A)
  | Raise (e : exn).
Arguments Return {A} a.
Arguments Raise {A} e.

Global Instance outcome_ret : MRet outcome := @Return.
Global Instance outcome_bind : MBind outcome := λ A B f m,
  match m with
  | Return a => f a
  | Raise e => Raise e
  end.

(** Evaluate a list of computations from left to right; the first one that
    raises aborts the rest. *)
Fixpoint sequence {A} (l : list (outcome A)) : outcome (list A) :=
  match l with
  | [] => Return []
  | m :: l' => a ← m; r ← sequence l'; Return (a :: r)
  end.

Definition is_Return {A} (m : outcome A) : bool :=
  match m with Return _ => true | Raise _ => false end.

Global Instance Return_inj {A} : Inj (=) (=) (@Return A).
Proof. by intros ?? [= ->]. Qed.

(** ** Configuration *)

Inductive ErrorHandling := LOG | FAIL.

Global Instance ErrorHandling_eq_dec : EqDecision ErrorHandling.
Proof. solve_decision. Defined.

(** [OutputColumnNameTuple]: the named tuple of the four output columns. *)
Record OutputColumnNameTuple := {
  response : string;
  error_message : string;
  error_type : string;
  error_raw : string;
}.

(** Iterating over the named tuple yields its fields in order. *)
Definition fields (names : OutputColumnNameTuple) : list string :=
  [response names; error_message names; error_type names; error_raw names].

(** The user function is called with [row=...] or with [batch=...]. *)
Inductive arg :=
  | ArgRow (row : Row)
  | ArgBatch (batch : list Row).

Definition batch_parser : Type :=
  list Row → value → OutputColumnNameTuple → outcome (list Row).

(** The attributes of a [DataFrameParallelizer].  [parallel_workers] is
    positive: [ThreadPoolExecutor] accepts no other worker count. *)
Record DataFrameParallelizer := {
  function : arg → outcome value;
  error_handling : ErrorHandling;
  exceptions_to_catch : list string;
  parallel_workers : positive;
  batch_support : bool;
  batch_size : Z;
  batch_response_parser : option batch_parser;
  output_column_prefix : string;
  verbose : bool;
}.

Definition DEFAULT_PARALLEL_WORKERS : positive := 4.
Definition DEFAULT_BATCH_SIZE : Z := 10.
Definition DEFAULT_BATCH_SUPPORT : bool := false.
Definition DEFAULT_VERBOSE : bool := false.
Definition DEFAULT_OUTPUT_COLUMN_PREFIX : string := "output".
Definition OUTPUT_COLUMN_NAME_DESCRIPTIONS : list (string * string) :=
  [("response", "Raw response in JSON format");
   ("error_message", "Error message");
   ("error_type", "Error type or code");
   ("error_raw", "Raw error")].

(** ** Tables *)

(** A [pandas.DataFrame] with distinct column labels and columns of dtype
    [object]: the ordered column labels and, for each row, its cells. *)
Record DataFrame := {
  columns : list string;
  records : list Row;
}.

Global Instance DataFrame_eq_dec : EqDecision DataFrame.
Proof. solve_decision. Defined.

(** The cells of one record for the given column labels; a label without a
    cell reads as [nan]. *)
Definition reindex_row (cols : list string) (r : Row) : Row :=
  foldr (λ c acc, <[c := default VNaN (r !! c)]> acc) ∅ cols.

(** [(pair[1].to_dict() for pair in df.iterrows())] *)
Definition df_row_generator (df : DataFrame) : list Row :=
  fmap (reindex_row (columns df)) (records df).

(** [pd.DataFrame.from_records(results).reindex(columns=cols)] *)
Definition from_records_reindex (results : list Row) (cols : list string)
    : DataFrame :=
  {| columns := cols; records := fmap (reindex_row cols) results |}.

(** [.astype({c: str for c in cols})] on columns of dtype [object], which
    pandas converts cell by cell with [str].  A column that holds a string
    is of that dtype.  A column without any string may get a numeric dtype
    when the table is built, and the text of its cells then follows that
    dtype ([1] next to [None] reads [1.0]); the statements that give the
    text of a cell are about columns that hold strings. *)
Definition astype_str (cols : list string) (df : DataFrame) : DataFrame :=
  {| columns := columns df;
     records :=
       fmap (λ r, foldr (λ c acc, alter (λ v, VStr (py_str v)) c acc) r cols)
           (records df) |}.

(** [df.drop(labels=labels, axis=1)] *)
Definition df_drop (labels : list string) (df : DataFrame) : DataFrame :=
  {| columns := filter (λ c, c ∉ labels) (columns df);
     records := fmap (λ r, foldr delete r labels) (records df) |}.

(** ** more_itertools and concurrent.futures *)

(** [sys.maxsize], the largest size that [islice] accepts (CPython on a
    64-bit platform). *)
Definition sys_maxsize : Z := 2 ^ 63 - 1.

(** [chunked(iterable, n)] is [iter(partial(take, n, it), [])]: take [n]
    items at a time until a take comes back empty. *)
Fixpoint chunked_go {A} (fuel n : nat) (l : list A) : list (list A) :=
  match fuel with
  | 0 => []
  | S fuel' =>
      match take n l with
      | [] => []
      | chunk => chunk :: chunked_go fuel' n (drop n l)
      end
  end.

Definition chunked {A} (l : list A) (n : nat) : list (list A) :=
  chunked_go (S (length l)) n l.

(** [as_completed(futures)] yields every future once: first the futures
    that are already finished when it is called, in the iteration order of
    a set, then the others as they finish.  [yielded] lists the positions
    of the futures in the order in which they are yielded; it is not the
    order in which the units complete. *)
Definition as_completed {A} (yielded : list nat) (futures : list A)
    : list A :=
  omap (λ i, futures !! i) yielded.

(** The orders in which [as_completed] can yield [n] futures: each of them
    once. *)
Definition yield_order (n : nat) (yielded : list nat) : Prop :=
  yielded ≡ₚ seq 0 n.

Global Instance yield_order_dec n yielded :
  Decision (yield_order n yielded).
Proof. unfold yield_order. apply _. Defined.

(** ** dkulib.io_utils.plugin_io_utils *)

(** Modelled from the spec: the candidate names of [generate_unique], whose
    source is not part of [src/] (section 4.2 of the spec, "appending/
    incrementing a suffix"): the base name, then the base name with the
    suffixes [_1], [_2], ... *)
Definition candidate (base : string) (j : nat) : string :=
  match j with
  | 0 => base
  | S _ => base +:+ "_" +:+ pretty j
  end.

(** Modelled from the spec: the search of [generate_unique] (section 4.2 of
    the spec, "until no collision with existing names ... occurs"), from
    candidate [j] on, for at most [fuel] attempts. *)
Fixpoint first_free (existing : list string) (base : string)
    (fuel j : nat) : string :=
  match fuel with
  | 0 => candidate base j
  | S fuel' =>
      if bool_decide (candidate base j ∈ existing)
      then first_free existing base fuel' (S j)
      else candidate base j
  end.

(** Modelled from the spec: [generate_unique] of
    [dkulib/io_utils/plugin_io_utils.py] is imported by the parallelizer
    but its source is not part of [src/].  Section 4.2 of the spec: the
    name is prefixed and then generated "deterministically by
    appending/incrementing a suffix until no collision with existing names
    ... occurs"; the examples of section 8 show the separator
    ([output_response]).  Among [length existing_names + 1] distinct
    candidates one is free, so that many attempts are enough. *)
Definition generate_unique (name : string) (existing_names : list string)
    (prefix : string) : string :=
  first_free existing_names (prefix +:+ "_" +:+ name)
    (length existing_names) 0.

(** ** The parallelizer *)

Module Parallelizer.

Section parallelizer.

(** [repr] of a Python string (quoting and escaping) is a built-in; the
    model takes it as a parameter. *)
Variable repr_str : string → string.

(** [repr(v)] *)
Definition py_repr (v : value) : string :=
  match v with
  | VStr s => repr_str s
  | _ => py_str v
  end.

(** [str(l)] for a list [l] *)
Definition py_str_list (l : list value) : string :=
  "[" +:+ join ", " (fmap py_repr l) +:+ "]".

(** [str(exception.args)] for an exception built from one string *)
Definition py_str_args1 (s : string) : string :=
  "(" +:+ repr_str s +:+ ",)".

(** *** The exceptions the code itself raises *)

(** An instance of a built-in exception class has no [__module__]
    attribute, so [inspect.getmodule] finds no module for it; an instance
    of a class defined in Python, such as [BatchError], has one. *)
Definition ValueError (msg : string) : exn :=
  Exn "ValueError" None
      ["builtins.ValueError"; "builtins.Exception"; "builtins.BaseException"]
      msg (py_str_args1 msg).

Definition TypeError (msg : string) : exn :=
  Exn "TypeError" None
      ["builtins.TypeError"; "builtins.Exception"; "builtins.BaseException"]
      msg (py_str_args1 msg).

(** [str(KeyError(k))] is [repr(k)]. *)
Definition KeyError (key : string) : exn :=
  Exn "KeyError" None
      ["builtins.KeyError"; "builtins.LookupError"; "builtins.Exception";
       "builtins.BaseException"]
      (repr_str key) (py_str_args1 key).

Definition ZeroDivisionError (msg : string) : exn :=
  Exn "ZeroDivisionError" None
      ["builtins.ZeroDivisionError"; "builtins.ArithmeticError";
       "builtins.Exception"; "builtins.BaseException"]
      msg (py_str_args1 msg).

Definition BatchError_class : string :=
  "dkulib.parallelizer.parallelizer.BatchError".

(** [class BatchError(ValueError)] *)
Definition BatchError (msg : string) : exn :=
  Exn "BatchError" (Some "dkulib.parallelizer.parallelizer")
      [BatchError_class; "builtins.ValueError"; "builtins.Exception";
       "builtins.BaseException"]
      msg (py_str_args1 msg).

(** [except classes as error]: the exception is an instance of one of the
    classes. *)
Definition catches (classes : list string) (e : exn) : bool :=
  existsb (λ c, bool_decide (c ∈ exn_mro e)) classes.

(** *** [__init__] *)

Definition init
    (function : arg → outcome value)
    (error_handling : ErrorHandling)
    (exceptions_to_catch : list string)
    (parallel_workers : positive)
    (batch_support : bool)
    (batch_size : Z)
    (batch_response_parser : option batch_parser)
    (output_column_prefix : string)
    (verbose : bool) : outcome DataFrameParallelizer :=
  if bool_decide (error_handling = LOG)
     && bool_decide (exceptions_to_catch = [])
  then Raise (ValueError
                "Please set at least one exception in exceptions_to_catch")
  else if batch_support && bool_decide (batch_response_parser = None)
  then Raise (ValueError
                "Please provide a valid batch_response_parser function")
  else Return {|
    function := function;
    error_handling := error_handling;
    exceptions_to_catch := exceptions_to_catch;
    parallel_workers := parallel_workers;
    batch_support := batch_support;
    batch_size := batch_size;
    batch_response_parser := batch_response_parser;
    output_column_prefix := output_column_prefix;
    verbose := verbose;
  |}.

(** *** [_get_unique_output_column_names] *)

Definition get_unique_output_column_names (self : DataFrameParallelizer)
    (existing_names : list string) : OutputColumnNameTuple :=
  let unique column_name :=
    generate_unique column_name existing_names (output_column_prefix self) in
  {| response := unique "response";
     error_message := unique "error_message";
     error_type := unique "error_type";
     error_raw := unique "error_raw" |}.

(** *** [_apply_function_and_parse_response] *)

(** What the wrapper returns: a dictionary in row mode, a list of
    dictionaries in batch mode. *)
Inductive unit_result :=
  | URow (output : Row)
  | UBatch (output : list Row).

(** [bool(row)]: [None] and the empty dictionary are false. *)
Definition truthy_row (row : option Row) : bool :=
  match row with
  | Some r => negb (bool_decide (r = ∅))
  | None => false
  end.

(** [bool(batch)]: [None] and the empty list are false. *)
Definition truthy_batch (batch : option (list Row)) : bool :=
  match batch with
  | Some (_ :: _) => true
  | _ => false
  end.

(** Values of the model are immutable, so a deep copy is the value itself. *)
Definition deepcopy {A} (x : A) : A := x.

(** [for output_column in output_column_names: output[output_column] = ""] *)
Definition init_output (output_column_names : OutputColumnNameTuple)
    (output : Row) : Row :=
  foldl (λ acc output_column, <[output_column := VStr ""]> acc)
        output (fields output_column_names).

(** The error type: the qualified name, prefixed by the module name when
    [inspect.getmodule] finds one. *)
Definition error_type_of (error : exn) : string :=
  match exn_module error with
  | Some module => module +:+ "." +:+ exn_qualname error
  | None => exn_qualname error
  end.

Definition set_error (output_column_names : OutputColumnNameTuple)
    (error : exn) (output : Row) : Row :=
  <[error_raw output_column_names := VStr (exn_args error)]>
    (<[error_type output_column_names := VStr (error_type_of error)]>
       (<[error_message output_column_names := VStr (exn_str error)]>
          output)).

(** The [except] clause of the wrapper, entered with the exception raised in
    the [try] block and the value of [output] at that point. *)
Definition handle (self : DataFrameParallelizer)
    (output_column_names : OutputColumnNameTuple) (error : exn)
    (output : unit_result) : outcome unit_result :=
  if catches (exceptions_to_catch self ++ [BatchError_class]) error then
    match error_handling self with
    | FAIL => Raise error
    | LOG =>
        Return
          match output with
          | URow output => URow (set_error output_column_names error output)
          | UBatch output =>
              UBatch (fmap (set_error output_column_names error) output)
          end
    end
  else Raise error.

(** [row[output_column_names.error_message]], a [KeyError] when the row has
    no such key. *)
Definition get_error_message (output_column_names : OutputColumnNameTuple)
    (row : Row) : outcome value :=
  match row !! error_message output_column_names with
  | Some v => Return v
  | None => Raise (KeyError (error_message output_column_names))
  end.

(** The branch of the wrapper taken when [row] is false: every use of
    [output] and [batch] on the [else] sides of [if row]. *)
Definition batch_branch (self : DataFrameParallelizer)
    (output_column_names : OutputColumnNameTuple)
    (batch : option (list Row)) : outcome unit_result :=
  match batch with
  | None =>
      (* [output] is [None]: [for output_row in output] fails *)
      Raise (TypeError "'NoneType' object is not iterable")
  | Some b =>
      (* [output = deepcopy(batch)], the output columns set to [""] *)
      let output := fmap (init_output output_column_names) (deepcopy b) in
      match function self (ArgBatch b) with
      | Raise error => handle self output_column_names error (UBatch output)
      | Return raw_response =>
          match batch_response_parser self with
          | None =>
              handle self output_column_names
                (TypeError "'NoneType' object is not callable")
                (UBatch output)
          | Some parser =>
              match parser b raw_response output_column_names with
              | Raise error =>
                  handle self output_column_names error (UBatch output)
              | Return output =>
                  match mapM (get_error_message output_column_names) output
                  with
                  | Raise error =>
                      handle self output_column_names error (UBatch output)
                  | Return messages =>
                      let errors := filter (λ v, truthy v = true) messages in
                      match errors with
                      | [] => Return (UBatch output)
                      | _ :: _ =>
                          handle self output_column_names
                            (BatchError (py_str_list errors)) (UBatch output)
                      end
                  end
              end
          end
      end
  end.

Definition apply_function_and_parse_response (self : DataFrameParallelizer)
    (output_column_names : OutputColumnNameTuple)
    (row : option Row) (batch : option (list Row)) : outcome unit_result :=
  if truthy_row row && truthy_batch batch then
    Raise (ValueError
             "Please use either row or batch as arguments, but not both")
  else
    match row with
    | Some r =>
        if truthy_row row then
          (* [output = deepcopy(row)], the output columns set to [""] *)
          let output := init_output output_column_names (deepcopy r) in
          match function self (ArgRow r) with
          | Return raw_response =>
              Return (URow (<[response output_column_names := raw_response]>
                              output))
          | Raise error => handle self output_column_names error (URow output)
          end
        else batch_branch self output_column_names batch
    | None => batch_branch self output_column_names batch
    end.

(** *** [_convert_results_to_df] *)

(** The input columns of the model are of dtype [object], for which
    [.astype(output_schema)] leaves the input cells as they are.  For an
    input column of a numeric dtype the conversion fails when a result row
    has no value for it; the statements that promise a table are about
    results that keep the input cells of their rows. *)
Definition convert_results_to_df (self : DataFrameParallelizer)
    (df : DataFrame) (results : list Row)
    (output_column_names : OutputColumnNameTuple) : DataFrame :=
  (* [output_schema]: [str] for the output columns, overridden by the dtype
     of an input column of the same name *)
  let str_columns :=
    filter (λ c, c ∉ columns df) (fields output_column_names) in
  let output_df :=
    astype_str str_columns
      (from_records_reindex results
         (columns df ++ fields output_column_names)) in
  let output_df :=
    if verbose self then output_df
    else df_drop [error_raw output_column_names] output_df in
  match error_handling self with
  | FAIL =>
      df_drop [error_message output_column_names;
               error_type output_column_names;
               error_raw output_column_names] output_df
  | LOG => output_df
  end.

(** *** [run] *)

(** The rows of the results: [flatten(results)] in batch mode, where every
    result is a list of rows, and [results] itself in row mode, where every
    result is a row (lemma [unit_result_shape]). *)
Definition flatten (results : list unit_result) : list Row :=
  mjoin (fmap (λ u, match u with UBatch rows => rows | URow r => [r] end)
              results).

(** The batches that [chunked(df_row_generator, self.batch_size)] yields.
    [chunked] takes the rows with [islice], which accepts a size from 0 to
    [sys.maxsize] only: with any other size it raises when the first batch
    is asked for, and there is no batch. *)
Definition df_row_batch_generator (self : DataFrameParallelizer)
    (df : DataFrame) : list (list Row) :=
  if bool_decide (0 ≤ batch_size self ≤ sys_maxsize)%Z
  then chunked (df_row_generator df) (Z.to_nat (batch_size self))
  else [].

(** The units of work in submission order, each as the [row] and [batch]
    arguments of its invocation: the rows of the table, or their
    consecutive groups of [batch_size] rows. *)
Definition units (self : DataFrameParallelizer) (df : DataFrame)
    : list (option Row * option (list Row)) :=
  if batch_support self then
    fmap (λ batch, (None, Some batch)) (df_row_batch_generator self df)
  else fmap (λ row, (Some row, None)) (df_row_generator df).

Definition run (self : DataFrameParallelizer) (yielded : list nat)
    (df : DataFrame) : outcome DataFrame :=
  (* [len_generator = math.ceil(df_num_rows / self.batch_size)] *)
  _ ← (if batch_support self && bool_decide (batch_size self = 0%Z)
       then Raise (ZeroDivisionError "division by zero")
       else Return ());
  let output_column_names :=
    get_unique_output_column_names self (columns df) in
  (* [for batch in df_row_batch_generator]: [islice] rejects a negative
     size and a size above [sys.maxsize] *)
  _ ← (if batch_support self
          && bool_decide (batch_size self < 0
                          ∨ sys_maxsize < batch_size self)%Z
       then Raise (ValueError
                     ("Stop argument for islice() must be None or an "
                      +:+ "integer: 0 <= x <= sys.maxsize."))
       else Return ());
  let futures :=
    fmap (λ unit,
           apply_function_and_parse_response self output_column_names
             unit.1 unit.2)
        (units self df) in
  (* [for future in as_completed(futures): results.append(future.result())] *)
  results ← sequence (as_completed yielded futures);
  (* [flatten(results) if self.batch_support else results] *)
  Return (convert_results_to_df self df (flatten results)
            output_column_names).

(** *** The progress total and the summary of [run] *)

(** [len_generator], the number of units announced to the progress bar:
    [math.ceil(df_num_rows / self.batch_size)] in batch mode, the number of
    rows in row mode.  Python rounds the quotient of two integers
    correctly, so for a number of rows and a batch size below [2^53] the
    ceiling of the float is the ceiling of the exact quotient, which the
    model computes. *)
Definition len_generator (self : DataFrameParallelizer) (df : DataFrame)
    : outcome Z :=
  let df_num_rows := Z.of_nat (length (records df)) in
  if batch_support self then
    if bool_decide (batch_size self = 0%Z)
    then Raise (ZeroDivisionError "division by zero")
    else Return (- ((- df_num_rows) `div` batch_size self))%Z
  else Return df_num_rows.

(** [num_error = sum(output_df[output_column_names.response] == "")] *)
Definition num_error (output_column_names : OutputColumnNameTuple)
    (output_df : DataFrame) : nat :=
  length (filter (λ r, r !! response output_column_names = Some (VStr ""))
                 (records output_df)).

(** [num_success = len(df.index) - num_error] *)
Definition num_success (df : DataFrame)
    (output_column_names : OutputColumnNameTuple) (output_df : DataFrame)
    : Z :=
  (Z.of_nat (length (records df))
   - Z.of_nat (num_error output_column_names output_df))%Z.

End parallelizer.

End Parallelizer.

Import Parallelizer.

(** * Object identity: the model with a store

    The model above passes rows by value, which is exact as long as nobody
    updates an object in place.  To study what [run] and the user function
    can do to the input table, this module keeps the mutable objects of the
    table in a store.  A cell of a table is an immutable value or a
    reference to a mutable list object.  [Series.to_dict()] makes a new
    dictionary whose values are the cells themselves, so a reference is
    shared between the table and the dictionary; [deepcopy] makes new
    objects.  The dictionaries and batches that [run] creates for the units
    are not part of the table and stay values. *)

Module Store.

Definition loc := positive.

Inductive cell :=
  | Imm (v : value)
  | Ref (l : loc).

Global Instance cell_eq_dec : EqDecision cell.
Proof. solve_decision. Defined.

(** The mutable objects: Python lists of immutable values. *)
Abbreviation store := (gmap loc (list value)).

Abbreviation Row := (gmap string cell).

Record DataFrame := {
  columns : list string;
  records : list Row;
}.

Inductive arg :=
  | ArgRow (row : Row)
  | ArgBatch (batch : list Row).

Inductive unit_result :=
  | URow (output : Row)
  | UBatch (output : list Row).

(** A call of the user function or of the parser may update the store
    before it returns or raises. *)
Definition batch_parser : Type :=
  list Row → cell → OutputColumnNameTuple → store →
  outcome (list Row) * store.

Record DataFrameParallelizer := {
  function : arg → store → outcome cell * store;
  error_handling : ErrorHandling;
  exceptions_to_catch : list string;
  parallel_workers : positive;
  batch_support : bool;
  batch_size : Z;
  batch_response_parser : option batch_parser;
  output_column_prefix : string;
  verbose : bool;
}.

Definition reindex_row (cols : list string) (r : Row) : Row :=
  foldr (λ c acc, <[c := default (Imm VNaN) (r !! c)]> acc) ∅ cols.

(** [(pair[1].to_dict() for pair in df.iterrows())]: new dictionaries, the
    same cell objects. *)
Definition df_row_generator (df : DataFrame) : list Row :=
  fmap (reindex_row (columns df)) (records df).



(** Every reference of the table points to an object of the store. *)
Definition cell_closed (σ : store) (c : cell) : Prop :=
  match c with
  | Imm _ => True
  | Ref l => is_Some (σ !! l)
  end.

Global Instance cell_closed_dec σ c : Decision (cell_closed σ c).
Proof. destruct c; apply _. Defined.

Definition table_closed (df : DataFrame) (σ : store) : Prop :=
  Forall (map_Forall (λ _, cell_closed σ)) (records df).

Global Instance table_closed_dec df σ : Decision (table_closed df σ).
Proof. unfold table_closed. apply _. Defined.

(** *** [copy.deepcopy] *)

(** The state of a deep copy: the memo (objects already copied) and the
    store. *)
Definition copy_state : Type := gmap loc loc * store.

Definition deepcopy_cell (c : cell) (st : copy_state) : cell * copy_state :=
  match c with
  | Imm _ => (c, st)
  | Ref l =>
      match st.1 !! l with
      | Some l' => (Ref l', st)
      | None =>
          match st.2 !! l with
          | Some o =>
              let l' := fresh (dom st.2) in
              (Ref l', (<[l := l']> st.1, <[l' := o]> st.2))
          | None => (c, st)
          end
      end
  end.

Definition deepcopy_row (r : Row) (st : copy_state) : Row * copy_state :=
  map_fold (λ k c acc,
              let '(c', st') := deepcopy_cell c acc.2 in
              (<[k := c']> acc.1, st'))
           (∅, st) r.

Fixpoint deepcopy_rows (b : list Row) (st : copy_state)
    : list Row * copy_state :=
  match b with
  | [] => ([], st)
  | r :: b' =>
      let '(r', st') := deepcopy_row r st in
      let '(b'', st'') := deepcopy_rows b' st' in
      (r' :: b'', st'')
  end.

(** [deepcopy(row)] *)
Definition deepcopy (r : Row) (σ : store) : Row * store :=
  let '(r', st) := deepcopy_row r (∅, σ) in (r', st.2).

(** [deepcopy(batch)] *)
Definition deepcopy_batch (b : list Row) (σ : store) : list Row * store :=
  let '(b', st) := deepcopy_rows b (∅, σ) in (b', st.2).

Section store.

Variable repr_str : string → string.

Definition get_unique_output_column_names (self : DataFrameParallelizer)
    (existing_names : list string) : OutputColumnNameTuple :=
  let unique column_name :=
    generate_unique column_name existing_names (output_column_prefix self) in
  {| response := unique "response";
     error_message := unique "error_message";
     error_type := unique "error_type";
     error_raw := unique "error_raw" |}.

Definition truthy_row (row : option Row) : bool :=
  match row with
  | Some r => negb (bool_decide (r = ∅))
  | None => false
  end.

Definition truthy_batch (batch : option (list Row)) : bool :=
  match batch with
  | Some (_ :: _) => true
  | _ => false
  end.

Definition init_output (output_column_names : OutputColumnNameTuple)
    (output : Row) : Row :=
  foldl (λ acc output_column, <[output_column := Imm (VStr "")]> acc)
        output (fields output_column_names).

Definition set_error (output_column_names : OutputColumnNameTuple)
    (error : exn) (output : Row) : Row :=
  <[error_raw output_column_names := Imm (VStr (exn_args error))]>
    (<[error_type output_column_names := Imm (VStr (error_type_of error))]>
       (<[error_message output_column_names := Imm (VStr (exn_str error))]>
          output)).

Definition handle (self : DataFrameParallelizer)
    (output_column_names : OutputColumnNameTuple) (error : exn)
    (output : unit_result) : outcome unit_result :=
  if catches (exceptions_to_catch self ++ [BatchError_class]) error then
    match error_handling self with
    | FAIL => Raise error
    | LOG =>
        Return
          match output with
          | URow output => URow (set_error output_column_names error output)
          | UBatch output =>
              UBatch (fmap (set_error output_column_names error) output)
          end
    end
  else Raise error.

Definition get_error_message (output_column_names : OutputColumnNameTuple)
    (row : Row) : outcome cell :=
  match row !! error_message output_column_names with
  | Some v => Return v
  | None => Raise (KeyError repr_str (error_message output_column_names))
  end.

(** [bool(c)]: a reference to a list is true when the list is not empty. *)
Definition truthy_cell (σ : store) (c : cell) : bool :=
  match c with
  | Imm v => truthy v
  | Ref l => match σ !! l with Some [] => false | _ => true end
  end.

Definition py_repr_cell (σ : store) (c : cell) : string :=
  match c with
  | Imm v => py_repr repr_str v
  | Ref l => py_str_list repr_str (default [] (σ !! l))
  end.

Definition batch_branch (self : DataFrameParallelizer)
    (output_column_names : OutputColumnNameTuple)
    (batch : option (list Row)) (σ : store) : outcome unit_result * store :=
  match batch with
  | None => (Raise (TypeError repr_str "'NoneType' object is not iterable"), σ)
  | Some b =>
      let '(output, σ) := deepcopy_batch b σ in
      let output := fmap (init_output output_column_names) output in
      match function self (ArgBatch b) σ with
      | (Raise error, σ) =>
          (handle self output_column_names error (UBatch output), σ)
      | (Return raw_response, σ) =>
          match batch_response_parser self with
          | None =>
              (handle self output_column_names
                 (TypeError repr_str "'NoneType' object is not callable")
                 (UBatch output), σ)
          | Some parser =>
              match parser b raw_response output_column_names σ with
              | (Raise error, σ) =>
                  (handle self output_column_names error (UBatch output), σ)
              | (Return output, σ) =>
                  match mapM (get_error_message output_column_names) output
                  with
                  | Raise error =>
                      (handle self output_column_names error (UBatch output),
                       σ)
                  | Return messages =>
                      let errors :=
                        filter (λ c, truthy_cell σ c = true) messages in
                      match errors with
                      | [] => (Return (UBatch output), σ)
                      | _ :: _ =>
                          (handle self output_column_names
                             (BatchError repr_str
                                ("[" +:+ join ", "
                                           (fmap (py_repr_cell σ) errors)
                                 +:+ "]"))
                             (UBatch output), σ)
                      end
                  end
              end
          end
      end
  end.

Definition apply_function_and_parse_response (self : DataFrameParallelizer)
    (output_column_names : OutputColumnNameTuple)
    (row : option Row) (batch : option (list Row)) (σ : store)
    : outcome unit_result * store :=
  if truthy_row row && truthy_batch batch then
    (Raise (ValueError repr_str
              "Please use either row or batch as arguments, but not both"),
     σ)
  else
    match row with
    | Some r =>
        if truthy_row row then
          (* [output = deepcopy(row)]; the function is called on [row] *)
          let '(output, σ) := deepcopy r σ in
          let output := init_output output_column_names output in
          match function self (ArgRow r) σ with
          | (Return raw_response, σ) =>
              (Return (URow (<[response output_column_names := raw_response]>
                               output)), σ)
          | (Raise error, σ) =>
              (handle self output_column_names error (URow output), σ)
          end
        else batch_branch self output_column_names batch σ
    | None => batch_branch self output_column_names batch σ
    end.

(** The units of [run], in submission order. *)
Definition units (self : DataFrameParallelizer) (df : DataFrame)
    : list (option Row * option (list Row)) :=
  if batch_support self then
    fmap (λ batch, (None, Some batch))
        (if bool_decide (0 ≤ batch_size self ≤ sys_maxsize)%Z
         then chunked (df_row_generator df) (Z.to_nat (batch_size self))
         else [])
  else fmap (λ row, (Some row, None)) (df_row_generator df).



End store.

End Store.

(** * Vocabulary of the properties *)

(** ** Units and results *)

(** The rows of a unit of work and of its result. *)
Definition unit_rows (unit : option Row * option (list Row)) : list Row :=
  match unit with
  | (Some r, _) => [r]
  | (None, Some b) => b
  | (None, None) => []
  end.

Definition result_rows (u : unit_result) : list Row :=
  match u with URow r => [r] | UBatch rows => rows end.

(** The argument with which the wrapper calls the user function:
    [row if row else batch]. *)
Definition unit_arg (unit : option Row * option (list Row)) : option arg :=
  match unit with
  | (Some r, batch) =>
      if bool_decide (r = ∅) then ArgBatch <$> batch else Some (ArgRow r)
  | (None, batch) => ArgBatch <$> batch
  end.

(** The contract of the batch response parser (docstring of the class,
    sections 4.3 and 6 of the spec): it returns the rows of the batch, in
    the same number and order, with the output columns [names] filled
    in. *)
Definition parser_keeps_length (names : OutputColumnNameTuple)
    (parser : batch_parser) : Prop :=
  ∀ batch raw_response output,
    parser batch raw_response names = Return output →
    length output = length batch.

Definition parser_keeps_rows (cols : list string)
    (names : OutputColumnNameTuple) (parser : batch_parser) : Prop :=
  ∀ batch raw_response output,
    parser batch raw_response names = Return output →
    reindex_row cols <$> output = reindex_row cols <$> batch.

(** ** Output tables *)

(** What [_convert_results_to_df] makes of one result row. *)
Definition output_record (self : DataFrameParallelizer) (df : DataFrame)
    (names : OutputColumnNameTuple) (r : Row) : Row :=
  let r1 :=
    foldr (λ c acc, alter (λ v, VStr (py_str v)) c acc)
          (reindex_row (columns df ++ fields names) r)
          (filter (λ c, c ∉ columns df) (fields names)) in
  let r2 := if verbose self then r1 else foldr delete r1 [error_raw names] in
  match error_handling self with
  | FAIL =>
      foldr delete r2
            [error_message names; error_type names; error_raw names]
  | LOG => r2
  end.

(** [df.values]: the cells of a table, row by row, in column order. *)
Definition cells (df : DataFrame) : list (list (option value)) :=
  (λ r, (λ c, r !! c) <$> columns df) <$> records df.

(** A field of a row is populated when it holds a string that is not empty,
    and empty when it holds the empty string. *)
Definition populated (c : string) (r : Row) : bool :=
  match r !! c with
  | Some (VStr s) => negb (bool_decide (s = ""))
  | _ => false
  end.

Definition empty_field (c : string) (r : Row) : bool :=
  bool_decide (r !! c = Some (VStr "")).

(** A failed row: error message and error type populated, response empty. *)
Definition error_row (names : OutputColumnNameTuple) (r : Row) : bool :=
  populated (error_message names) r && populated (error_type names) r
  && empty_field (response names) r.

(** A successful row: response populated, error fields empty (the raw error
    is absent from the table unless [verbose]). *)
Definition success_row (names : OutputColumnNameTuple) (r : Row) : bool :=
  populated (response names) r && empty_field (error_message names) r
  && empty_field (error_type names) r && negb (populated (error_raw names) r).

Fixpoint count {A} (p : A → bool) (l : list A) : nat :=
  match l with
  | [] => 0
  | x :: l' => (if p x then 1 else 0) + count p l'
  end.

(** The suffix of the [j]-th candidate name. *)
Definition suffix (j : nat) : string :=
  match j with 0 => "" | S _ => "_" +:+ pretty j end.

(** ** Store *)

(** A user function or a parser that leaves every object of the store as it
    is (it may create new ones). *)
Definition function_preserves
    (f : Store.arg → Store.store → outcome Store.cell * Store.store) : Prop :=
  ∀ a σ, σ ⊆ (f a σ).2.

Definition parser_preserves (parser : Store.batch_parser) : Prop :=
  ∀ batch raw_response names σ, σ ⊆ (parser batch raw_response names σ).2.

(** ** Summary and copies *)

(** The rows that end with an empty response: the invocation raises, or it
    returns a value whose text is empty. *)
Definition empty_response (self : DataFrameParallelizer) (r : Row) : bool :=
  match function self (ArgRow r) with
  | Raise _ => true
  | Return v => bool_decide (py_str v = "")
  end.

(** A row [copy] in the store [σ'] is a deep copy of the row [r] of the
    store [σ]: the same keys, the same immutable cells, and for each list
    cell a reference to an object that [σ] does not have, with the same
    elements. *)
Definition deep_copy_of (σ : Store.store) (r : Store.Row)
    (σ' : Store.store) (copy : Store.Row) (c : string) : Prop :=
  match r !! c with
  | Some (Store.Imm v) => copy !! c = Some (Store.Imm v)
  | Some (Store.Ref l) =>
      ∃ l', copy !! c = Some (Store.Ref l') ∧ (l' ∉ dom σ) ∧
            σ' !! l' = σ !! l
  | None => copy !! c = None
  end.

(** * Examples *)

Definition double_quote : string := String (Ascii.ascii_of_nat 34) "".

Fixpoint has_single_quote (s : string) : bool :=
  match s with
  | EmptyString => false
  | String a s' =>
      bool_decide (a = Ascii.ascii_of_nat 39) || has_single_quote s'
  end.

(** [repr] of a string without backslash, control character or double
    quote: single quotes, or double quotes around a string that has a
    single quote. *)
Definition repr_plain (s : string) : string :=
  if has_single_quote s then double_quote +:+ s +:+ double_quote
  else "'" +:+ s +:+ "'".

Definition row_of_id (id : Z) : Row := {["id" := VInt id]}.

(** The table [[{"id":1},{"id":2},{"id":3}]] of section 8 of the spec. *)
Definition table3 : DataFrame :=
  {| columns := ["id"];
     records := [row_of_id 1; row_of_id 2; row_of_id 3] |}.

Definition table2 : DataFrame :=
  {| columns := ["id"]; records := [row_of_id 1; row_of_id 2] |}.

(** [ValueError("invalid id")] and [ValueError()] *)
Definition invalid_id : exn := ValueError repr_plain "invalid id".

Definition bare_ValueError : exn :=
  Exn "ValueError" None
      ["builtins.ValueError"; "builtins.Exception"; "builtins.BaseException"]
      "" "()".

(** The user function of section 8 of the spec: ["ok-<id>"], and a
    [ValueError] for id 2; on a batch, the number of rows. *)
Definition ok_unless_2 (a : arg) : outcome value :=
  match a with
  | ArgRow row =>
      match row !! "id" with
      | Some (VInt 2) => Raise invalid_id
      | Some v => Return (VStr ("ok-" +:+ py_str v))
      | None => Return VNone
      end
  | ArgBatch batch => Return (VInt (Z.of_nat (length batch)))
  end.

(** A user function that answers the empty string, and raises a
    [ValueError] without message for id 2. *)
Definition quiet_unless_2 (a : arg) : outcome value :=
  match a with
  | ArgRow row =>
      match row !! "id" with
      | Some (VInt 2) => Raise bare_ValueError
      | _ => Return (VStr "")
      end
  | ArgBatch batch => Return (VStr "")
  end.

(** A parser that gives every row of the batch the raw response and an
    error message: ["invalid id"] for id 2, none for the others. *)
Definition parse_ids : batch_parser := λ batch raw_response names,
  Return
    ((λ row,
        <[error_message names :=
            VStr (if bool_decide (row !! "id" = Some (VInt 2))
                  then "invalid id" else "")]>
          (<[response names := raw_response]> row))
       <$> batch).

Definition parallelizer_of (function : arg → outcome value)
    (error_handling : ErrorHandling) (batch_support : bool)
    (batch_response_parser : option batch_parser)
    : DataFrameParallelizer :=
  {| function := function;
     error_handling := error_handling;
     exceptions_to_catch := ["builtins.ValueError"];
     parallel_workers := DEFAULT_PARALLEL_WORKERS;
     batch_support := batch_support;
     batch_size := 2;
     batch_response_parser := batch_response_parser;
     output_column_prefix := DEFAULT_OUTPUT_COLUMN_PREFIX;
     verbose := true |}.

Definition log_rows : DataFrameParallelizer :=
  parallelizer_of ok_unless_2 LOG false None.

Definition fail_rows : DataFrameParallelizer :=
  parallelizer_of ok_unless_2 FAIL false None.

Definition quiet_rows : DataFrameParallelizer :=
  parallelizer_of quiet_unless_2 LOG false None.

Definition log_batches : DataFrameParallelizer :=
  parallelizer_of ok_unless_2 LOG true (Some parse_ids).

(** The output columns of the examples. *)
Definition output_names : OutputColumnNameTuple :=
  {| response := "output_response";
     error_message := "output_error_message";
     error_type := "output_error_type";
     error_raw := "output_error_raw" |}.


Definition tagged_store : Store.store := {[ 1%positive := [VStr "new"] ]}.


(** A user function that only reads its argument. *)
Definition answer_ok (a : Store.arg) (σ : Store.store)
    : outcome Store.cell * Store.store :=
  (Return (Store.Imm (VStr "ok")), σ).

Definition store_parallelizer_of
    (function : Store.arg → Store.store → outcome Store.cell * Store.store)
    : Store.DataFrameParallelizer :=
  {| Store.function := function;
     Store.error_handling := LOG;
     Store.exceptions_to_catch := ["builtins.ValueError"];
     Store.parallel_workers := DEFAULT_PARALLEL_WORKERS;
     Store.batch_support := false;
     Store.batch_size := DEFAULT_BATCH_SIZE;
     Store.batch_response_parser := None;
     Store.output_column_prefix := DEFAULT_OUTPUT_COLUMN_PREFIX;
     Store.verbose := DEFAULT_VERBOSE |}.

(** ** Further examples *)

(** A table without rows and a table with two rows and no column. *)
Definition table0 : DataFrame := {| columns := ["id"]; records := [] |}.

Definition table_no_columns : DataFrame :=
  {| columns := []; records := [∅; ∅] |}.

(** A user function that looks up a key that the row of id 2 does not
    have: [KeyError('name')] for id 2, the id itself for the others. *)
Definition lookup_unless_2 (a : arg) : outcome value :=
  match a with
  | ArgRow row =>
      match row !! "id" with
      | Some (VInt 2) => Raise (KeyError repr_plain "name")
      | Some v => Return v
      | None => Return VNone
      end
  | ArgBatch batch => Return (VInt (Z.of_nat (length batch)))
  end.


(** A user function that rejects every batch. *)
Definition reject_batches (a : arg) : outcome value :=
  match a with
  | ArgRow row => Return VNone
  | ArgBatch batch => Raise invalid_id
  end.

(** A parser that gives every row the raw response and nothing else. *)
Definition parse_response_only : batch_parser := λ batch raw_response names,
  Return ((λ row, <[response names := raw_response]> row) <$> batch).

(** The same parallelizer with another batch size. *)
Definition with_batch_size (size : Z) (self : DataFrameParallelizer)
    : DataFrameParallelizer :=
  {| function := function self;
     error_handling := error_handling self;
     exceptions_to_catch := exceptions_to_catch self;
     parallel_workers := parallel_workers self;
     batch_support := batch_support self;
     batch_size := size;
     batch_response_parser := batch_response_parser self;
     output_column_prefix := output_column_prefix self;
     verbose := verbose self |}.

(** [log_rows] with one worker, batch size 0 and a parser. *)
Definition log_rows_other_settings : DataFrameParallelizer :=
  {| function := ok_unless_2;
     error_handling := LOG;
     exceptions_to_catch := ["builtins.ValueError"];
     parallel_workers := 1;
     batch_support := false;
     batch_size := 0;
     batch_response_parser := Some parse_ids;
     output_column_prefix := DEFAULT_OUTPUT_COLUMN_PREFIX;
     verbose := true |}.

(** The row of [tagged_table]. *)
Definition tagged_row : Store.Row :=
  {[ "id" := Store.Imm (VInt 1); "tags" := Store.Ref 1%positive ]}.

(** * Properties *)

(** ** Strings *)


Lemma string_app_cons a (s1 s2 : string) :
  String a s1 +:+ s2 = String a (s1 +:+ s2).
Proof. reflexivity. Qed.

Lemma string_app_assoc (s1 s2 s3 : string) :
  (s1 +:+ s2) +:+ s3 = s1 +:+ (s2 +:+ s3).
Proof.
  induction s1 as [|a s1 IH]; [done|].
  rewrite !string_app_cons. by f_equal.
Qed.

Lemma string_app_nil_r (s : string) : s +:+ "" = s.
Proof.
  induction s as [|a s IH]; [done|].
  rewrite string_app_cons. by f_equal.
Qed.

Lemma candidate_suffix base j : candidate base j = base +:+ suffix j.
Proof. destruct j; simpl; [by rewrite string_app_nil_r | done]. Qed.

Lemma suffix_inj : Inj (=) (=) suffix.
Proof.
  intros [|j] [|k] H; simpl in H; try done.
  injection H as H. by apply pretty_nat_inj in H.
Qed.

Lemma candidate_inj base : Inj (=) (=) (candidate base).
Proof.
  intros j k. rewrite !candidate_suffix. intros H.
  apply String.app_inj in H. by apply suffix_inj.
Qed.

Lemma first_free_candidate existing base fuel j :
  ∃ k, first_free existing base fuel j = candidate base k.
Proof.
  revert j. induction fuel as [|fuel IH]; intros j; simpl; [by eexists|].
  case_bool_decide; [apply IH | by eexists].
Qed.

Lemma first_free_fresh existing base fuel j :
  (∀ i, i < j → candidate base i ∈ existing) →
  j + fuel = length existing →
  first_free existing base fuel j ∉ existing.
Proof.
  revert j. induction fuel as [|fuel IH]; intros j Hlt Hlen; simpl.
  - intros Hin.
    assert (candidate base <$> seq 0 (S j) ⊆+ existing) as Hsub.
    { apply NoDup_submseteq.
      - apply (NoDup_fmap_2 (candidate base) (Inj0 := candidate_inj base)),
          NoDup_seq.
      - intros x [i [-> Hi]]%list_elem_of_fmap.
        apply elem_of_seq in Hi.
        destruct (decide (i = j)) as [->|]; [done | apply Hlt; lia]. }
    apply submseteq_length in Hsub.
    rewrite length_fmap, length_seq in Hsub. lia.
  - case_bool_decide as Hin; [|done].
    apply IH; [|lia].
    intros i Hi. destruct (decide (i = j)) as [->|]; [done | apply Hlt; lia].
Qed.

Lemma generate_unique_fresh name existing prefix :
  generate_unique name existing prefix ∉ existing.
Proof. apply first_free_fresh; [lia | done]. Qed.

Lemma generate_unique_shape name existing prefix :
  ∃ j, generate_unique name existing prefix
       = prefix +:+ "_" +:+ name +:+ suffix j.
Proof.
  destruct (first_free_candidate existing (prefix +:+ "_" +:+ name)
              (length existing) 0) as [j Hj].
  exists j. unfold generate_unique. rewrite Hj, candidate_suffix.
  by rewrite !string_app_assoc.
Qed.

Lemma get_unique_output_column_names_fresh self existing c :
  c ∈ fields (get_unique_output_column_names self existing) → c ∉ existing.
Proof.
  unfold fields, get_unique_output_column_names; simpl.
  rewrite !elem_of_cons, elem_of_nil.
  intros [->|[->|[->|[->|[]]]]]; apply generate_unique_fresh.
Qed.

Lemma get_unique_output_column_names_NoDup self existing :
  NoDup (fields (get_unique_output_column_names self existing)).
Proof.
  unfold fields, get_unique_output_column_names; simpl.
  destruct (generate_unique_shape "response" existing
              (output_column_prefix self)) as [j1 ->].
  destruct (generate_unique_shape "error_message" existing
              (output_column_prefix self)) as [j2 ->].
  destruct (generate_unique_shape "error_type" existing
              (output_column_prefix self)) as [j3 ->].
  destruct (generate_unique_shape "error_raw" existing
              (output_column_prefix self)) as [j4 ->].
  repeat (apply NoDup_cons; split); try apply NoDup_nil_2;
    rewrite ?elem_of_cons, ?elem_of_nil;
    intros H; repeat destruct H as [H|H]; try done;
    apply String.app_inj in H; simplify_eq.
Qed.


(** ** Outcomes *)

Lemma sequence_Return {A} (l : list (outcome A)) (rs : list A) :
  sequence l = Return rs ↔ l = Return <$> rs.
Proof.
  revert rs. induction l as [|[a|e] l IH]; intros rs; simpl.
  - split; [intros [= <-]; done | by destruct rs].
  - destruct (sequence l) as [r|e'] eqn:Hs; simpl.
    + split.
      * intros [= <-]. simpl. f_equal. by apply IH.
      * destruct rs as [|a' rs]; [done|]. intros [= -> Hl].
        apply IH in Hl. by simplify_eq.
    + split; [done|]. destruct rs as [|a' rs]; [done|]. intros [= -> Hl].
      apply IH in Hl. done.
  - split; [done | by destruct rs].
Qed.

Lemma sequence_fmap_Return {A} (rs : list A) :
  sequence (Return <$> rs) = Return rs.
Proof. by apply sequence_Return. Qed.

Lemma sequence_Raise {A} (l : list (outcome A)) e :
  Raise e ∈ l → ∃ e', sequence l = Raise e' ∧ Raise e' ∈ l.
Proof.
  induction l as [|[a|e0] l IH]; intros Hin.
  - by apply elem_of_nil in Hin.
  - apply elem_of_cons in Hin as [?|Hin]; [done|].
    destruct (IH Hin) as (e' & Hs & He'). exists e'. simpl. rewrite Hs.
    split; [done | by apply elem_of_cons; right].
  - exists e0. split; [done | apply elem_of_cons; by left].
Qed.

Lemma sequence_Raise_inv {A} (l : list (outcome A)) e :
  sequence l = Raise e → Raise e ∈ l.
Proof.
  induction l as [|[a|e0] l IH]; simpl; [done| |].
  - destruct (sequence l) as [r|e'] eqn:Hs; simpl; [done|].
    intros [= ->]. apply elem_of_cons; right. by apply IH.
  - intros [= ->]. apply elem_of_cons; by left.
Qed.

(** ** The order of the yielded futures *)

Lemma as_completed_fmap {A B} (f : A → B) yielded (l : list A) :
  as_completed yielded (f <$> l) = f <$> as_completed yielded l.
Proof.
  unfold as_completed. induction yielded as [|i c IH]; csimpl; [done|].
  rewrite list_lookup_fmap, IH. by destruct (l !! i).
Qed.

Lemma as_completed_seq_take {A} (l : list A) j n :
  as_completed (seq j n) l = take n (drop j l).
Proof.
  unfold as_completed. revert j. induction n as [|n IH]; intros j; csimpl.
  - done.
  - rewrite IH. destruct (l !! j) as [x|] eqn:Hj.
    + by rewrite (drop_S l x j).
    + apply lookup_ge_None in Hj.
      rewrite !drop_ge by lia. by rewrite take_nil.
Qed.

Lemma as_completed_seq {A} (l : list A) :
  as_completed (seq 0 (length l)) l = l.
Proof. rewrite as_completed_seq_take, drop_0. apply firstn_all. Qed.

Lemma as_completed_Permutation {A} yielded (l : list A) :
  yield_order (length l) yielded → as_completed yielded l ≡ₚ l.
Proof.
  unfold yield_order. intros Hc.
  rewrite <- (as_completed_seq l) at 2.
  unfold as_completed. by rewrite Hc.
Qed.

(** ** Chunks *)

Lemma chunked_go_concat {A} fuel n (l : list A) :
  0 < n → length l < fuel → mjoin (chunked_go fuel n l) = l.
Proof.
  intros Hn. revert l. induction fuel as [|fuel IH]; intros l Hl; [lia|].
  simpl. destruct (take n l) as [|x chunk] eqn:Ht.
  - destruct l; [done|]. destruct n; [lia | done].
  - simpl. rewrite IH.
    + change (x :: (chunk ++ drop n l)) with ((x :: chunk) ++ drop n l).
      rewrite <- Ht. apply take_drop.
    + rewrite length_drop.
      destruct l as [|y l]; [by rewrite take_nil in Ht|]. simpl in *. lia.
Qed.

Lemma chunked_concat {A} n (l : list A) : 0 < n → mjoin (chunked l n) = l.
Proof. intros. apply chunked_go_concat; [done | lia]. Qed.

Lemma chunked_go_Forall {A} fuel n (l : list A) :
  Forall (λ chunk, chunk ≠ [] ∧ length chunk ≤ n) (chunked_go fuel n l).
Proof.
  revert l. induction fuel as [|fuel IH]; intros l; simpl; [done|].
  destruct (take n l) as [|x chunk] eqn:Ht; [done|].
  constructor; [|apply IH]. split; [done|].
  rewrite <- Ht, length_take. lia.
Qed.

Lemma chunked_Forall {A} n (l : list A) :
  Forall (λ chunk, chunk ≠ [] ∧ length chunk ≤ n) (chunked l n).
Proof. apply chunked_go_Forall. Qed.

(** ** Rows *)

Lemma reindex_row_lookup cols (r : Row) c :
  reindex_row cols r !! c
  = if decide (c ∈ cols) then Some (default VNaN (r !! c)) else None.
Proof.
  unfold reindex_row. induction cols as [|c' cols IH].
  - rewrite decide_False by apply not_elem_of_nil. apply lookup_empty.
  - cbn [foldr]. rewrite lookup_insert.
    destruct (decide (c' = c)) as [->|Hc].
    + rewrite decide_True by (apply elem_of_cons; by left). done.
    + rewrite IH. destruct (decide (c ∈ cols)) as [Hin|Hin].
      * rewrite decide_True by (apply elem_of_cons; by right). done.
      * rewrite decide_False; [done|].
        intros [?|?]%elem_of_cons; by simplify_eq.
Qed.

Lemma reindex_row_nil (r : Row) : reindex_row [] r = ∅.
Proof. done. Qed.

Lemma reindex_row_ne cols (r : Row) : cols ≠ [] → reindex_row cols r ≠ ∅.
Proof.
  destruct cols as [|c cols]; [done|]. intros _ H.
  assert (reindex_row (c :: cols) r !! c = None) as Hl
    by (rewrite H; apply lookup_empty).
  rewrite reindex_row_lookup, decide_True in Hl; [done|].
  apply elem_of_cons; by left.
Qed.

Lemma init_output_lookup names (r : Row) c :
  init_output names r !! c
  = if decide (c ∈ fields names) then Some (VStr "") else r !! c.
Proof.
  unfold init_output, fields; cbn [foldl].
  rewrite !lookup_insert.
  destruct (decide (c ∈ _)) as [Hin|Hin].
  - rewrite !elem_of_cons, elem_of_nil in Hin.
    repeat case_decide; try done. intuition congruence.
  - rewrite !not_elem_of_cons in Hin.
    repeat case_decide; try done; intuition congruence.
Qed.

Lemma set_error_lookup names e (r : Row) c :
  set_error names e r !! c
  = if decide (error_raw names = c) then Some (VStr (exn_args e))
    else if decide (error_type names = c)
         then Some (VStr (error_type_of e))
    else if decide (error_message names = c) then Some (VStr (exn_str e))
    else r !! c.
Proof. unfold set_error. by rewrite !lookup_insert. Qed.

Lemma reindex_row_ext cols (r1 r2 : Row) :
  (∀ c, c ∈ cols → r1 !! c = r2 !! c) →
  reindex_row cols r1 = reindex_row cols r2.
Proof.
  intros H. apply map_eq. intros c. rewrite !reindex_row_lookup.
  case_decide; [|done]. by rewrite H.
Qed.


Lemma astype_lookup (f : value → value) cols (r : Row) c :
  NoDup cols →
  foldr (λ c acc, alter f c acc) r cols !! c
  = if decide (c ∈ cols) then f <$> r !! c else r !! c.
Proof.
  intros Hnd. revert c. induction Hnd as [|c' cols Hc' Hnd IH]; intros c.
  - by rewrite decide_False by apply not_elem_of_nil.
  - cbn [foldr]. rewrite lookup_alter, !IH.
    destruct (decide (c' = c)) as [->|Hne].
    + rewrite (decide_False _ _ Hc').
      by rewrite decide_True by (apply elem_of_cons; by left).
    + destruct (decide (c ∈ cols)) as [Hin|Hin].
      * by rewrite decide_True by (apply elem_of_cons; by right).
      * rewrite decide_False; [done|].
        intros [?|?]%elem_of_cons; by simplify_eq.
Qed.

Lemma astype_lookup_ne (f : value → value) cols (r : Row) c :
  c ∉ cols → foldr (λ c acc, alter f c acc) r cols !! c = r !! c.
Proof.
  induction cols as [|c' cols IH]; [done|].
  intros [Hne Hin]%not_elem_of_cons. cbn [foldr].
  rewrite lookup_alter_ne by done. by apply IH.
Qed.

Lemma foldr_delete_lookup labels (r : Row) c :
  foldr delete r labels !! c
  = if decide (c ∈ labels) then None else r !! c.
Proof.
  induction labels as [|c' labels IH].
  - by rewrite decide_False by apply not_elem_of_nil.
  - cbn [foldr]. rewrite lookup_delete.
    destruct (decide (c' = c)) as [->|Hne].
    + by rewrite decide_True by (apply elem_of_cons; by left).
    + rewrite IH. destruct (decide (c ∈ labels)) as [Hin|Hin].
      * by rewrite decide_True by (apply elem_of_cons; by right).
      * rewrite decide_False; [done|].
        intros [?|?]%elem_of_cons; by simplify_eq.
Qed.

Lemma filter_all {A} (P : A → Prop) `{!∀ x, Decision (P x)} (l : list A) :
  Forall P l → filter P l = l.
Proof.
  induction 1 as [|x l Hx _ IH]; [done|].
  by rewrite filter_cons_True, IH.
Qed.

Lemma fields_NoDup names :
  NoDup (fields names) →
  response names ≠ error_message names ∧ response names ≠ error_type names ∧
  response names ≠ error_raw names ∧
  error_message names ≠ error_type names ∧
  error_message names ≠ error_raw names ∧
  error_type names ≠ error_raw names.
Proof.
  unfold fields. rewrite !NoDup_cons, !not_elem_of_cons. tauto.
Qed.

Lemma response_in_fields names : response names ∈ fields names.
Proof. unfold fields. set_solver. Qed.

Lemma error_message_in_fields names : error_message names ∈ fields names.
Proof. unfold fields. set_solver. Qed.

Lemma error_type_in_fields names : error_type names ∈ fields names.
Proof. unfold fields. set_solver. Qed.

Lemma error_raw_in_fields names : error_raw names ∈ fields names.
Proof. unfold fields. set_solver. Qed.

Lemma error_raw_subseteq_fields names : [error_raw names] ⊆ fields names.
Proof. intros c. unfold fields. rewrite !elem_of_cons, !elem_of_nil. tauto. Qed.

Lemma error_columns_subseteq_fields names :
  [error_message names; error_type names; error_raw names] ⊆ fields names.
Proof. intros c. unfold fields. rewrite !elem_of_cons, !elem_of_nil. tauto. Qed.

Lemma string_app_nonempty_r (s1 s2 : string) : s2 ≠ "" → s1 +:+ s2 ≠ "".
Proof. destruct s1; [done|]. by rewrite string_app_cons. Qed.

Lemma error_type_of_nonempty e : exn_qualname e ≠ "" → error_type_of e ≠ "".
Proof.
  unfold error_type_of. destruct (exn_module e); [|done]. intros H.
  by do 2 apply string_app_nonempty_r.
Qed.

Lemma populated_lookup c (r : Row) s :
  r !! c = Some (VStr s) → populated c r = negb (bool_decide (s = "")).
Proof. unfold populated. by intros ->. Qed.

Lemma populated_None c (r : Row) : r !! c = None → populated c r = false.
Proof. unfold populated. by intros ->. Qed.

Lemma empty_field_lookup c (r : Row) s :
  r !! c = Some (VStr s) → empty_field c r = bool_decide (s = "").
Proof.
  unfold empty_field. intros ->.
  apply bool_decide_ext. split; [by intros [= ->] | by intros ->].
Qed.

Lemma set_error_populated names e (row : Row) c :
  exn_str e ≠ "" → error_type_of e ≠ "" → exn_args e ≠ "" →
  c ∈ [error_message names; error_type names; error_raw names] →
  populated c (set_error names e row) = true.
Proof.
  intros Hs Ht Ha Hc. unfold populated. rewrite set_error_lookup.
  rewrite !elem_of_cons, elem_of_nil in Hc.
  repeat case_decide; try (by rewrite bool_decide_false).
  exfalso. intuition congruence.
Qed.

(** ** Counting *)

Lemma count_app {A} (p : A → bool) l1 l2 :
  count p (l1 ++ l2) = count p l1 + count p l2.
Proof. induction l1 as [|x l1 IH]; simpl; [done | rewrite IH; lia]. Qed.

Global Instance count_Permutation {A} (p : A → bool) :
  Proper ((≡ₚ) ==> (=)) (count p).
Proof. induction 1; simpl; lia. Qed.

Lemma count_fmap {A B} (f : A → B) (p : B → bool) l :
  count p (f <$> l) = count (p ∘ f) l.
Proof. induction l as [|x l IH]; csimpl; [done | by rewrite IH]. Qed.

Lemma count_all {A} (p : A → bool) l :
  (∀ x, x ∈ l → p x = true) → count p l = length l.
Proof.
  induction l as [|x l IH]; intros H; simpl; [done|].
  rewrite H by (apply elem_of_cons; by left).
  rewrite IH; [done|]. intros ??. apply H, elem_of_cons; by right.
Qed.

Lemma count_none {A} (p : A → bool) l :
  (∀ x, x ∈ l → p x = false) → count p l = 0.
Proof.
  induction l as [|x l IH]; intros H; simpl; [done|].
  rewrite H by (apply elem_of_cons; by left).
  rewrite IH; [done|]. intros ??. apply H, elem_of_cons; by right.
Qed.

(** A list in which the element at position [i] is the only one that
    satisfies [p], or the only one that does not. *)
Lemma count_one {A} (p : A → bool) (l : list A) i x :
  l !! i = Some x → p x = true →
  (∀ j y, j ≠ i → l !! j = Some y → p y = false) →
  count p l = 1.
Proof.
  intros Hi Hx Hothers.
  rewrite <- (take_drop_middle l i x Hi), count_app. simpl. rewrite Hx.
  rewrite !count_none; [done| |].
  - intros y [j Hj]%list_elem_of_lookup. apply (Hothers (S i + j)); [lia|].
    by rewrite <- lookup_drop.
  - intros y [j Hj]%list_elem_of_lookup.
    pose proof (lookup_lt_Some _ _ _ Hj) as Hlt.
    rewrite length_take in Hlt.
    apply (Hothers j); [lia|]. rewrite lookup_take_lt in Hj; [done | lia].
Qed.

Lemma count_all_but_one {A} (p : A → bool) (l : list A) i x :
  l !! i = Some x → p x = false →
  (∀ j y, j ≠ i → l !! j = Some y → p y = true) →
  count p l = length l - 1.
Proof.
  intros Hi Hx Hothers.
  rewrite <- (take_drop_middle l i x Hi), count_app, length_app. simpl.
  rewrite Hx. rewrite !count_all; [lia| |].
  - intros y [j Hj]%list_elem_of_lookup. apply (Hothers (S i + j)); [lia|].
    by rewrite <- lookup_drop.
  - intros y [j Hj]%list_elem_of_lookup.
    pose proof (lookup_lt_Some _ _ _ Hj) as Hlt.
    rewrite length_take in Hlt.
    apply (Hothers j); [lia|]. rewrite lookup_take_lt in Hj; [done | lia].
Qed.

(** ** Results and tables *)

Lemma as_completed_elem {A} yielded (l : list A) x :
  x ∈ as_completed yielded l → x ∈ l.
Proof.
  unfold as_completed. intros (i & _ & Hi)%list_elem_of_omap.
  by eapply list_elem_of_lookup_2.
Qed.

Lemma flatten_result_rows results :
  flatten results = mjoin (result_rows <$> results).
Proof. done. Qed.

Lemma flatten_URow (rows : list Row) : flatten (URow <$> rows) = rows.
Proof.
  unfold flatten. induction rows as [|r rows IH]; csimpl; [done|].
  by f_equal.
Qed.

Lemma convert_results_to_df_records self df results names :
  records (convert_results_to_df self df results names)
  = output_record self df names <$> results.
Proof.
  unfold convert_results_to_df, output_record.
  destruct (error_handling self), (verbose self); simpl;
    rewrite <- ?list_fmap_compose; done.
Qed.

Lemma convert_results_to_df_columns self df results1 results2 names :
  columns (convert_results_to_df self df results1 names)
  = columns (convert_results_to_df self df results2 names).
Proof.
  unfold convert_results_to_df.
  by destruct (error_handling self), (verbose self).
Qed.

Lemma output_record_lookup self df names (r : Row) c :
  error_handling self = LOG →
  NoDup (fields names) →
  (∀ c, c ∈ fields names → c ∉ columns df) →
  c ∈ fields names →
  output_record self df names r !! c
  = if decide (verbose self = false ∧ c = error_raw names) then None
    else Some (VStr (py_str (default VNaN (r !! c)))).
Proof.
  intros Hlog Hnd Hfresh Hc. unfold output_record. rewrite Hlog.
  assert (filter (λ c, c ∉ columns df) (fields names) = fields names) as ->.
  { apply filter_all, Forall_forall. intros ??. by apply Hfresh. }
  assert (foldr (λ c acc, alter (λ v, VStr (py_str v)) c acc)
            (reindex_row (columns df ++ fields names) r) (fields names) !! c
          = Some (VStr (py_str (default VNaN (r !! c))))) as Hl.
  { rewrite astype_lookup by done. rewrite decide_True by done.
    rewrite reindex_row_lookup.
    by rewrite decide_True by (apply elem_of_app; by right). }
  destruct (verbose self).
  - rewrite decide_False by (by intros [? _]). done.
  - rewrite foldr_delete_lookup.
    destruct (decide (c = error_raw names)) as [->|Hne].
    + rewrite decide_True by (apply elem_of_cons; by left).
      by rewrite decide_True.
    + rewrite decide_False by (by intros [?|?%elem_of_nil]%elem_of_cons).
      rewrite decide_False by (by intros [_ ?]). done.
Qed.

Section rows.
Context (self : DataFrameParallelizer) (df : DataFrame)
        (names : OutputColumnNameTuple).
Hypothesis Hfresh : ∀ c, c ∈ fields names → c ∉ columns df.





Hypothesis Hlog : error_handling self = LOG.
Hypothesis Hnd : NoDup (fields names).

Lemma success_output_lookup (r : Row) v c :
  c ∈ fields names →
  output_record self df names (<[response names := v]> (init_output names r))
    !! c
  = if decide (verbose self = false ∧ c = error_raw names) then None
    else if decide (c = response names) then Some (VStr (py_str v))
    else Some (VStr "").
Proof.
  intros Hc. rewrite output_record_lookup by done.
  case_decide; [done|]. rewrite lookup_insert.
  destruct (decide (response names = c)) as [<-|Hne].
  - by rewrite decide_True.
  - rewrite decide_False by done.
    by rewrite init_output_lookup, decide_True.
Qed.

Lemma error_output_lookup (r : Row) e c :
  c ∈ fields names →
  output_record self df names (set_error names e (init_output names r)) !! c
  = if decide (verbose self = false ∧ c = error_raw names) then None
    else if decide (c = error_raw names) then Some (VStr (exn_args e))
    else if decide (c = error_type names)
         then Some (VStr (error_type_of e))
    else if decide (c = error_message names) then Some (VStr (exn_str e))
    else Some (VStr "").
Proof.
  intros Hc. rewrite output_record_lookup by done.
  case_decide; [done|]. rewrite set_error_lookup.
  rewrite init_output_lookup, (decide_True _ _ Hc).
  repeat case_decide; by simplify_eq.
Qed.

(** The output row of an invocation that returned [v]. *)
Lemma success_output_rows (r : Row) v :
  error_row names
    (output_record self df names
       (<[response names := v]> (init_output names r))) = false ∧
  success_row names
    (output_record self df names
       (<[response names := v]> (init_output names r)))
  = negb (bool_decide (py_str v = "")).
Proof.
  destruct (fields_NoDup names Hnd) as (?&?&?&?&?&?).
  pose proof (success_output_lookup r v _ (response_in_fields names)) as Hr.
  pose proof (success_output_lookup r v _ (error_message_in_fields names))
    as Hm.
  pose proof (success_output_lookup r v _ (error_type_in_fields names))
    as Ht.
  pose proof (success_output_lookup r v _ (error_raw_in_fields names)) as Hw.
  rewrite decide_False in Hr by (by intros [_ ?]).
  rewrite decide_False in Hm by (by intros [_ ?]).
  rewrite decide_False in Ht by (by intros [_ ?]).
  rewrite decide_True in Hr by done.
  rewrite decide_False in Hm by done.
  rewrite decide_False in Ht by done.
  rewrite (decide_False (P := error_raw names = response names)) in Hw
    by done.
  assert (populated (error_raw names)
            (output_record self df names
               (<[response names := v]> (init_output names r))) = false)
    as Hraw.
  { case_decide; [by apply populated_None|].
    by rewrite (populated_lookup _ _ _ Hw). }
  unfold error_row, success_row. rewrite Hraw.
  rewrite (populated_lookup _ _ _ Hm), (populated_lookup _ _ _ Hr).
  rewrite (empty_field_lookup _ _ _ Hm), (empty_field_lookup _ _ _ Ht).
  simpl. split; [done|]. by destruct (negb _).
Qed.

(** The output row of an invocation that raised a caught [e]. *)
Lemma error_output_rows (r : Row) e :
  error_row names
    (output_record self df names (set_error names e (init_output names r)))
  = negb (bool_decide (exn_str e = ""))
    && negb (bool_decide (error_type_of e = "")) ∧
  success_row names
    (output_record self df names (set_error names e (init_output names r)))
  = false.
Proof.
  destruct (fields_NoDup names Hnd) as (?&?&?&?&?&?).
  pose proof (error_output_lookup r e _ (response_in_fields names)) as Hr.
  pose proof (error_output_lookup r e _ (error_message_in_fields names))
    as Hm.
  pose proof (error_output_lookup r e _ (error_type_in_fields names)) as Ht.
  rewrite decide_False in Hr by (by intros [_ ?]).
  rewrite decide_False in Hm by (by intros [_ ?]).
  rewrite decide_False in Ht by (by intros [_ ?]).
  rewrite !decide_False in Hr by done.
  rewrite decide_False, decide_False, decide_True in Hm by done.
  rewrite decide_False, decide_True in Ht by done.
  unfold error_row, success_row.
  rewrite (populated_lookup _ _ _ Hm), (populated_lookup _ _ _ Ht),
    (populated_lookup _ _ _ Hr), (empty_field_lookup _ _ _ Hr).
  simpl. split; [|done]. by rewrite andb_true_r.
Qed.

End rows.

(** ** The wrapper and [run] *)

Section properties.

Variable repr_str : string → string.

Local Abbreviation apply_function_and_parse_response :=
  (apply_function_and_parse_response repr_str).
Local Abbreviation batch_branch := (batch_branch repr_str).
Local Abbreviation run := (run repr_str).
Local Abbreviation init := (init repr_str).
Local Abbreviation ValueError := (ValueError repr_str).
Local Abbreviation TypeError := (TypeError repr_str).
Local Abbreviation BatchError := (BatchError repr_str).

Lemma handle_Return self names e output u :
  handle self names e output = Return u →
  error_handling self = LOG ∧
  catches (exceptions_to_catch self ++ [BatchError_class]) e = true ∧
  u = match output with
      | URow o => URow (set_error names e o)
      | UBatch o => UBatch (set_error names e <$> o)
      end.
Proof.
  unfold handle. destruct (catches _ e); [|done].
  destruct (error_handling self); [|done]. by intros [= <-].
Qed.

Lemma handle_FAIL self names e output :
  error_handling self = FAIL → handle self names e output = Raise e.
Proof. unfold handle. intros ->. by destruct (catches _ e). Qed.

Lemma handle_LOG self names e output :
  error_handling self = LOG →
  catches (exceptions_to_catch self) e = true →
  handle self names e output
  = Return match output with
           | URow o => URow (set_error names e o)
           | UBatch o => UBatch (set_error names e <$> o)
           end.
Proof.
  unfold handle, catches. intros -> Hc.
  by rewrite existsb_app, Hc.
Qed.

Lemma handle_BatchError self names msg output :
  error_handling self = LOG →
  handle self names (BatchError msg) output
  = Return match output with
           | URow o => URow (set_error names (BatchError msg) o)
           | UBatch o => UBatch (set_error names (BatchError msg) <$> o)
           end.
Proof.
  intros Hlog. unfold handle.
  assert (catches (exceptions_to_catch self ++ [BatchError_class])
            (BatchError msg) = true) as ->; [|by rewrite Hlog].
  unfold catches. rewrite existsb_app. apply orb_true_iff. right.
  cbn [existsb]. apply orb_true_iff. left.
  apply bool_decide_eq_true, elem_of_cons. by left.
Qed.

Lemma apply_row self names (r : Row) :
  r ≠ ∅ →
  apply_function_and_parse_response self names (Some r) None
  = match function self (ArgRow r) with
    | Return v => Return (URow (<[response names := v]> (init_output names r)))
    | Raise e => handle self names e (URow (init_output names r))
    end.
Proof.
  intros Hr. unfold Parallelizer.apply_function_and_parse_response; simpl.
  by rewrite bool_decide_false by done.
Qed.

Lemma apply_row_empty self names batch_arg :
  apply_function_and_parse_response self names (Some ∅) batch_arg
  = batch_branch self names batch_arg.
Proof.
  unfold Parallelizer.apply_function_and_parse_response; simpl.
  by rewrite bool_decide_true by done.
Qed.

Lemma apply_batch self names batch_arg :
  apply_function_and_parse_response self names None batch_arg
  = batch_branch self names batch_arg.
Proof. done. Qed.

Lemma mapM_get_error_message names (output : list Row) :
  Forall (λ row, is_Some (row !! error_message names)) output →
  mapM (get_error_message repr_str names) output
  = Return ((λ row, default VNone (row !! error_message names)) <$> output).
Proof.
  induction 1 as [|row output [v Hv] _ IH]; [done|].
  cbn [mapM]. rewrite IH, fmap_cons. unfold get_error_message.
  rewrite Hv. reflexivity.
Qed.



(** A result has as many rows as its unit. *)
Lemma unit_result_length self df names unit u :
  (batch_support self = true →
   ∀ parser, batch_response_parser self = Some parser →
             parser_keeps_length names parser) →
  unit ∈ units self df →
  apply_function_and_parse_response self names unit.1 unit.2 = Return u →
  length (result_rows u) = length (unit_rows unit).
Proof.
  intros Hp. unfold units. destruct (batch_support self).
  - intros (b & -> & _)%list_elem_of_fmap; simpl.
    rewrite apply_batch. unfold Parallelizer.batch_branch, deepcopy.
    assert (∀ e u, handle self names e (UBatch (init_output names <$> b))
                   = Return u → length (result_rows u) = length b) as Hh.
    { intros e u' (_ & _ & ->)%handle_Return. simpl.
      by rewrite !length_fmap. }
    destruct (function self (ArgBatch b)) as [v|e]; [|by apply Hh].
    destruct (batch_response_parser self) as [parser|] eqn:Hparser;
      [|by apply Hh].
    destruct (parser b v names) as [output|e] eqn:Hout; [|by apply Hh].
    assert (length output = length b) as Hlen by by eapply Hp.
    assert (∀ e u, handle self names e (UBatch output) = Return u →
                   length (result_rows u) = length b) as Hh'.
    { intros e u' (_ & _ & ->)%handle_Return. simpl.
      by rewrite !length_fmap. }
    destruct (mapM _ output) as [messages|e]; [|by apply Hh'].
    destruct (filter _ messages); [|by apply Hh'].
    by intros [= <-].
  - intros (r & -> & _)%list_elem_of_fmap; simpl.
    destruct (decide (r = ∅)) as [->|Hr].
    + by rewrite apply_row_empty.
    + rewrite apply_row by done.
      destruct (function self (ArgRow r)) as [v|e]; [by intros [= <-]|].
      by intros (_ & _ & ->)%handle_Return.
Qed.

(** In row mode a result is a row, in batch mode a list of rows. *)
Lemma unit_result_shape self df names unit u :
  unit ∈ units self df →
  apply_function_and_parse_response self names unit.1 unit.2 = Return u →
  match u with
  | URow _ => batch_support self = false
  | UBatch _ => batch_support self = true
  end.
Proof.
  unfold units. destruct (batch_support self).
  - intros (b & -> & _)%list_elem_of_fmap; simpl.
    rewrite apply_batch. unfold Parallelizer.batch_branch, deepcopy.
    assert (∀ e output u, handle self names e (UBatch output) = Return u →
                          match u with
                          | URow _ => true = false
                          | UBatch _ => true = true
                          end) as Hh.
    { by intros e output u' (_ & _ & ->)%handle_Return. }
    destruct (function self (ArgBatch b)) as [v|e]; [|by apply Hh].
    destruct (batch_response_parser self) as [parser|]; [|by apply Hh].
    destruct (parser b v names) as [output|e]; [|by apply Hh].
    destruct (mapM _ output) as [messages|e]; [|by apply Hh].
    destruct (filter _ messages); [|by apply Hh].
    by intros [= <-].
  - intros (r & -> & _)%list_elem_of_fmap; simpl.
    destruct (decide (r = ∅)) as [->|Hr].
    + by rewrite apply_row_empty.
    + rewrite apply_row by done.
      destruct (function self (ArgRow r)) as [v|e]; [by intros [= <-]|].
      by intros (_ & _ & ->)%handle_Return.
Qed.

(** In fail mode an exception of the user function leaves the wrapper. *)
Lemma apply_FAIL self names df unit a e :
  error_handling self = FAIL →
  unit ∈ units self df →
  unit_arg unit = Some a →
  function self a = Raise e →
  apply_function_and_parse_response self names unit.1 unit.2 = Raise e.
Proof.
  intros Hfail Hin Ha He. unfold units in Hin.
  destruct (batch_support self).
  - apply list_elem_of_fmap in Hin as (b & -> & _). simpl in *.
    injection Ha as <-. rewrite apply_batch.
    unfold Parallelizer.batch_branch, deepcopy. rewrite He.
    by apply handle_FAIL.
  - apply list_elem_of_fmap in Hin as (r & -> & _). simpl in *.
    case_bool_decide as Hr; [done|]. injection Ha as <-.
    rewrite apply_row by done. rewrite He. by apply handle_FAIL.
Qed.

(** The rows of the units are the rows of the table, in order. *)
Lemma units_rows self df :
  (batch_support self = true → (0 < batch_size self ≤ sys_maxsize)%Z) →
  mjoin (unit_rows <$> units self df) = df_row_generator df.
Proof.
  intros Hb. unfold units, df_row_batch_generator.
  destruct (batch_support self).
  - rewrite bool_decide_true by (specialize (Hb eq_refl); lia).
    rewrite <- list_fmap_compose.
    rewrite <- (chunked_concat (Z.to_nat (batch_size self))
                  (df_row_generator df)) at 2 by (specialize (Hb eq_refl); lia).
    f_equal. rewrite <- (list_fmap_id (chunked _ _)) at 2.
    by apply list_fmap_ext.
  - rewrite <- list_fmap_compose.
    induction (df_row_generator df) as [|r l IH]; csimpl; [done|].
    by f_equal.
Qed.

Lemma units_nonempty_batch_size self df unit :
  unit ∈ units self df →
  batch_support self = true → (0 < batch_size self ≤ sys_maxsize)%Z.
Proof.
  unfold units, df_row_batch_generator. intros Hin Hb. rewrite Hb in Hin.
  destruct (decide (0 ≤ batch_size self ≤ sys_maxsize)%Z) as [Hv|Hv].
  - destruct (decide (0 < batch_size self)%Z) as [|Hn]; [lia|].
    rewrite bool_decide_true in Hin by done.
    replace (Z.to_nat (batch_size self)) with 0 in Hin by lia.
    unfold chunked in Hin. simpl in Hin. by apply elem_of_nil in Hin.
  - rewrite bool_decide_false in Hin by done. by apply elem_of_nil in Hin.
Qed.

(** The checks of the batch size. *)
Lemma run_batch_size self :
  (batch_support self = true → (0 < batch_size self ≤ sys_maxsize)%Z) →
  batch_support self && bool_decide (batch_size self = 0%Z) = false ∧
  batch_support self
  && bool_decide (batch_size self < 0 ∨ sys_maxsize < batch_size self)%Z
  = false.
Proof.
  intros Hb. destruct (batch_support self); [|done].
  specialize (Hb eq_refl). by rewrite !bool_decide_false by lia.
Qed.

(** How [run] returns a table. *)
Lemma run_Return self yielded df out :
  run self yielded df = Return out →
  (batch_support self = true → (0 < batch_size self ≤ sys_maxsize)%Z) ∧
  ∃ results,
    (λ unit, apply_function_and_parse_response self
               (get_unique_output_column_names self (columns df))
               unit.1 unit.2)
      <$> as_completed yielded (units self df)
    = Return <$> results ∧
    out = convert_results_to_df self df (flatten results)
            (get_unique_output_column_names self (columns df)).
Proof.
  unfold Parallelizer.run.
  destruct (batch_support self) eqn:Hbatch; simpl;
    repeat case_bool_decide; simpl; try done;
    rewrite as_completed_fmap;
    (destruct (sequence _) as [results|] eqn:Hs; simpl; [|done]);
    intros [= <-]; (split; [intros; lia|]);
    exists results; (split; [|done]); by apply sequence_Return.
Qed.

(** [run] in row mode when every invocation returns. *)
Lemma run_rows self yielded df (g : Row → Row) :
  batch_support self = false →
  (∀ r, r ∈ df_row_generator df →
        apply_function_and_parse_response self
          (get_unique_output_column_names self (columns df)) (Some r) None
        = Return (URow (g r))) →
  run self yielded df
  = Return (convert_results_to_df self df
              (g <$> as_completed yielded (df_row_generator df))
              (get_unique_output_column_names self (columns df))).
Proof.
  intros Hrow Hg. unfold Parallelizer.run, units. rewrite Hrow. simpl.
  rewrite <- list_fmap_compose.
  rewrite (list_fmap_ext _ (Return ∘ URow ∘ g) (df_row_generator df)).
  2:{ intros j r Hj. simpl. apply Hg. by eapply list_elem_of_lookup_2. }
  rewrite as_completed_fmap, !list_fmap_compose, sequence_fmap_Return.
  simpl. by rewrite flatten_URow.
Qed.

(** ** The claims *)

(** C1 (as amended).  Error isolation: in row mode and log mode, on a table
    of more than one row, when the user function raises an exception of the
    catch set on exactly one row and returns on the others, [run] returns a
    table with as many rows as the input, exactly one failed row (error
    message and error type populated, response empty) and all other rows
    successful (response populated, error fields empty) -- provided the
    exception has a message and a class name that are not empty and the
    text of every response is not empty. *)
Theorem error_isolation self yielded df i r e :
  error_handling self = LOG →
  batch_support self = false →
  yield_order (length (units self df)) yielded →
  1 < length (records df) →
  df_row_generator df !! i = Some r →
  function self (ArgRow r) = Raise e →
  catches (exceptions_to_catch self) e = true →
  exn_str e ≠ "" →
  exn_qualname e ≠ "" →
  (∀ j r', j ≠ i → df_row_generator df !! j = Some r' →
           ∃ v, function self (ArgRow r') = Return v ∧ py_str v ≠ "") →
  ∃ out,
    run self yielded df = Return out ∧
    length (records out) = length (records df) ∧
    count (error_row (get_unique_output_column_names self (columns df)))
          (records out) = 1 ∧
    count (success_row (get_unique_output_column_names self (columns df)))
          (records out) = length (records df) - 1.
Proof.
  intros Hlog Hrow Hc Hlen Hi He Hcatch Hstr Hqual Hothers.
  set (names := get_unique_output_column_names self (columns df)).
  assert (NoDup (fields names)) as Hnd
    by apply get_unique_output_column_names_NoDup.
  assert (∀ c, c ∈ fields names → c ∉ columns df) as Hfresh
    by apply get_unique_output_column_names_fresh.
  assert (length (df_row_generator df) = length (records df)) as Hrows
    by apply length_fmap.
  assert (length (units self df) = length (records df)) as Hunits.
  { unfold units. rewrite Hrow. by rewrite length_fmap. }
  (* the rows are not empty dictionaries *)
  assert (columns df ≠ []) as Hcols.
  { intros Hnil.
    set (j := if decide (i = 0) then 1 else 0).
    assert (j ≠ i ∧ j < 2) as [Hji Hj2] by (unfold j; case_decide; lia).
    destruct (df_row_generator df !! j) as [r'|] eqn:Hj.
    2:{ apply lookup_ge_None in Hj. lia. }
    destruct (Hothers j r' Hji Hj) as (v & Hv & _).
    unfold df_row_generator in Hi, Hj.
    rewrite Hnil, list_lookup_fmap in Hi, Hj.
    destruct (records df !! i); [|done]. destruct (records df !! j); [|done].
    unfold reindex_row in Hi, Hj. simpl in Hi, Hj. congruence. }
  assert (∀ r', r' ∈ df_row_generator df → r' ≠ ∅) as Hne.
  { intros r' (? & -> & _)%list_elem_of_fmap. by apply reindex_row_ne. }
  set (g := λ r' : Row,
         match function self (ArgRow r') with
         | Return v => <[response names := v]> (init_output names r')
         | Raise e' => set_error names e' (init_output names r')
         end).
  assert (∀ r', r' ∈ df_row_generator df →
                apply_function_and_parse_response self names (Some r') None
                = Return (URow (g r'))) as Hg.
  { intros r' Hr'. rewrite apply_row by by apply Hne. unfold g.
    apply list_elem_of_lookup in Hr' as [j Hj].
    destruct (decide (j = i)) as [->|Hji].
    - assert (r' = r) as -> by congruence. rewrite He.
      by apply handle_LOG.
    - destruct (Hothers j r' Hji Hj) as (v & -> & _). done. }
  eexists. split; [by apply run_rows|].
  rewrite convert_results_to_df_records, !length_fmap. fold names.
  pose proof (as_completed_Permutation yielded (df_row_generator df))
    as Hperm.
  rewrite Hrows, <- Hunits in Hperm. specialize (Hperm Hc).
  rewrite !count_fmap, !Hperm, Hrows.
  split; [done|]. split.
  - apply (count_one _ _ i r Hi).
    + simpl. unfold g. rewrite He.
      destruct (error_output_rows self df names Hfresh Hlog Hnd r e)
        as [-> _].
      rewrite !bool_decide_false; [done | | done].
      by apply error_type_of_nonempty.
    + intros j r' Hji Hj. simpl. unfold g.
      destruct (Hothers j r' Hji Hj) as (v & -> & _).
      by destruct (success_output_rows self df names Hfresh Hlog Hnd r' v).
  - rewrite <- Hrows. apply (count_all_but_one _ _ i r Hi).
    + simpl. unfold g. rewrite He.
      by destruct (error_output_rows self df names Hfresh Hlog Hnd r e).
    + intros j r' Hji Hj. simpl. unfold g.
      destruct (Hothers j r' Hji Hj) as (v & -> & Hv).
      destruct (success_output_rows self df names Hfresh Hlog Hnd r' v)
        as [_ ->].
      by rewrite bool_decide_false.
Qed.

(** C2.  Row count: whatever the table, the mode and the batch size, a
    table returned by [run] has exactly as many rows as the input table;
    flattening the batches neither drops nor duplicates a row.  The batch
    response parser is assumed to honour its contract and return as many
    rows as the batch it is given. *)
Theorem run_row_count self yielded df out :
  yield_order (length (units self df)) yielded →
  (batch_support self = true →
   ∀ parser, batch_response_parser self = Some parser →
             parser_keeps_length
               (get_unique_output_column_names self (columns df)) parser) →
  run self yielded df = Return out →
  length (records out) = length (records df).
Proof.
  intros Hc Hp (Hb & results & Hres & ->)%run_Return.
  rewrite convert_results_to_df_records, length_fmap.
  rewrite <- (length_fmap (reindex_row (columns df)) (records df)).
  fold (df_row_generator df). rewrite <- (units_rows self df Hb).
  apply as_completed_Permutation in Hc. rewrite <- Hc.
  rewrite flatten_result_rows.
  assert (∀ unit, unit ∈ as_completed yielded (units self df) →
                  unit ∈ units self df) as Hin
    by (intros ?; apply as_completed_elem).
  clear Hc. revert results Hres.
  induction (as_completed yielded (units self df)) as [|unit us IH];
    intros [|u results] Hres; simplify_eq/=; [done|].
  rewrite !length_app. f_equal.
  - eapply unit_result_length; [done| |done]. apply Hin, elem_of_cons; by left.
  - apply IH; [|done]. intros ??. apply Hin, elem_of_cons; by right.
Qed.

(** C3.  Fail-mode abort: in fail mode, when the user function raises on
    some unit (an exception of the catch set or any other one), [run]
    returns no table: it raises, and the exception that reaches the caller
    is one raised by the invocation of some unit -- that of the failing unit
    itself when the invocations of all other units return. *)
Theorem fail_mode_abort self yielded df unit a e :
  error_handling self = FAIL →
  yield_order (length (units self df)) yielded →
  unit ∈ units self df →
  unit_arg unit = Some a →
  function self a = Raise e →
  ∃ e',
    run self yielded df = Raise e' ∧
    (∃ unit', unit' ∈ units self df ∧
       apply_function_and_parse_response self
         (get_unique_output_column_names self (columns df))
         unit'.1 unit'.2 = Raise e') ∧
    (Forall (λ unit',
               unit' = unit ∨
               is_Return
                 (apply_function_and_parse_response self
                    (get_unique_output_column_names self (columns df))
                    unit'.1 unit'.2) = true)
            (units self df) →
     e' = e).
Proof.
  intros Hfail Hc Hin Ha He.
  set (names := get_unique_output_column_names self (columns df)).
  set (w := λ unit : option Row * option (list Row),
              apply_function_and_parse_response self names unit.1 unit.2).
  assert (w unit = Raise e) as Hunit by by eapply apply_FAIL.
  pose proof (as_completed_Permutation yielded (w <$> units self df)) as Hp.
  rewrite length_fmap in Hp. specialize (Hp Hc).
  assert (Raise e ∈ as_completed yielded (w <$> units self df)) as Hraise.
  { rewrite Hp. apply list_elem_of_fmap. by exists unit. }
  apply sequence_Raise in Hraise as (e' & Hs & He').
  rewrite Hp in He'. apply list_elem_of_fmap in He' as (unit' & Hw & Hin').
  exists e'. split; [|split].
  - unfold Parallelizer.run. fold names. fold w.
    destruct (run_batch_size self) as [-> ->];
      [by eapply units_nonempty_batch_size|].
    simpl. by rewrite Hs.
  - by exists unit'.
  - intros Hall. rewrite Forall_forall in Hall.
    destruct (Hall unit' Hin') as [->|Hret].
    + fold names in Hw. fold (w unit) in Hw. congruence.
    + fold names in Hret. fold (w unit') in Hret. by rewrite <- Hw in Hret.
Qed.


(** C5.  Construction-time validation: with error handling [LOG] and no
    exception to catch, [__init__] raises a [ValueError], whatever the
    other arguments; with batch support and no batch response parser it
    raises a [ValueError] as well.  No parallelizer is built, so no row is
    processed. *)
Theorem init_validation :
  (∀ function parallel_workers batch_support batch_size
     batch_response_parser output_column_prefix verbose,
      init function LOG [] parallel_workers batch_support batch_size
        batch_response_parser output_column_prefix verbose
      = Raise (ValueError
                 "Please set at least one exception in exceptions_to_catch"))
  ∧
  (∀ function error_handling exceptions_to_catch parallel_workers batch_size
     output_column_prefix verbose,
      ∃ msg,
        init function error_handling exceptions_to_catch parallel_workers
          true batch_size None output_column_prefix verbose
        = Raise (ValueError msg)).
Proof.
  split.
  - done.
  - intros f eh exc w size pre v. unfold Parallelizer.init.
    destruct (bool_decide (eh = LOG) && _); by eexists.
Qed.

(** C6 (as amended).  Row and batch: an invocation of the wrapper with both
    a row that is not empty and a batch that is not empty raises the
    [ValueError] "Please use either row or batch as arguments, but not
    both", whatever the parallelizer: before the unit is copied and before
    the user function is called. *)
Theorem row_and_batch_rejected self names (row : Row) (batch : list Row) :
  row ≠ ∅ → batch ≠ [] →
  apply_function_and_parse_response self names (Some row) (Some batch)
  = Raise (ValueError
             "Please use either row or batch as arguments, but not both").
Proof.
  intros Hrow Hbatch. unfold Parallelizer.apply_function_and_parse_response.
  simpl. rewrite bool_decide_false by done. by destruct batch.
Qed.

(** With neither a row nor a batch the wrapper fails on the iteration over
    [None], with a [TypeError]. *)
Lemma neither_row_nor_batch self names :
  apply_function_and_parse_response self names None None
  = Raise (TypeError "'NoneType' object is not iterable").
Proof. done. Qed.

(** C7.  Batch errors: in batch mode, when a row of the list returned by
    the batch response parser carries an error message that is not empty,
    the invocation ends as one [BatchError]; in log mode the wrapper
    returns the parsed rows, each with the error message, error type and
    raw error of that [BatchError], all three populated.  Every parsed row
    is assumed to have an error message entry, as the contract of the
    parser requires. *)
Theorem batch_error self names batch raw_response parser output :
  error_handling self = LOG →
  function self (ArgBatch batch) = Return raw_response →
  batch_response_parser self = Some parser →
  parser batch raw_response names = Return output →
  Forall (λ row, is_Some (row !! error_message names)) output →
  Exists (λ row, truthy (default VNone (row !! error_message names)) = true)
         output →
  ∃ msg,
    apply_function_and_parse_response self names None (Some batch)
    = Return (UBatch (set_error names (BatchError msg) <$> output)) ∧
    Forall (λ row, populated (error_message names) row = true ∧
                   populated (error_type names) row = true ∧
                   populated (error_raw names) row = true)
           (set_error names (BatchError msg) <$> output).
Proof.
  intros Hlog Hf Hp Hout Hall Hex.
  rewrite apply_batch. unfold Parallelizer.batch_branch.
  rewrite Hf, Hp, Hout, mapM_get_error_message by done.
  destruct (filter _ _) as [|v errors] eqn:Hfilter.
  { exfalso. apply Exists_exists in Hex as (row & Hrow & Htruthy).
    assert (default VNone (row !! error_message names)
            ∈ filter (λ v, truthy v = true)
                ((λ row, default VNone (row !! error_message names))
                   <$> output)) as Hin.
    { apply list_elem_of_filter. split; [done|].
      apply list_elem_of_fmap. by exists row. }
    rewrite Hfilter in Hin. by apply elem_of_nil in Hin. }
  exists (py_str_list repr_str (v :: errors)). split.
  - by apply handle_BatchError.
  - apply Forall_fmap, Forall_forall. intros row _. simpl.
    repeat split; apply set_error_populated; try done;
      rewrite ?elem_of_cons; auto.
Qed.

(** C8.  Output column names: the four generated column names are distinct
    from one another and from every existing column name. *)
Theorem output_column_names_unique self existing_names :
  NoDup (fields (get_unique_output_column_names self existing_names)) ∧
  Forall (λ c, c ∉ existing_names)
         (fields (get_unique_output_column_names self existing_names)).
Proof.
  split.
  - apply get_unique_output_column_names_NoDup.
  - apply Forall_forall. apply get_unique_output_column_names_fresh.
Qed.

(** C9 (as amended).  Reproducibility: with the same configuration and the
    same table, when a run returns a table, a run in which [as_completed]
    yields the futures in any other order returns a table with the same
    columns and the same rows up to their order, and the same table when
    the futures are yielded in the same order.  The order of the yielded
    futures is not fixed by the order in which the units complete. *)
Theorem runs_agree_up_to_row_order self yielded1 yielded2 df out1 :
  yield_order (length (units self df)) yielded1 →
  yield_order (length (units self df)) yielded2 →
  run self yielded1 df = Return out1 →
  ∃ out2,
    run self yielded2 df = Return out2 ∧
    columns out2 = columns out1 ∧
    records out2 ≡ₚ records out1 ∧
    (yielded2 = yielded1 → out2 = out1).
Proof.
  intros Hc1 Hc2 Hrun1.
  pose proof Hrun1 as (Hb & results1 & Hres1 & ->)%run_Return.
  set (names := get_unique_output_column_names self (columns df)) in *.
  set (w := λ unit : option Row * option (list Row),
              apply_function_and_parse_response self names unit.1 unit.2)
    in *.
  set (res := λ unit, match w unit with
                      | Return u => u
                      | Raise _ => URow ∅
                      end).
  pose proof (as_completed_Permutation _ _ Hc1) as Hp1.
  pose proof (as_completed_Permutation _ _ Hc2) as Hp2.
  assert (∀ unit, unit ∈ units self df → w unit = Return (res unit)) as Hall.
  { intros unit Hin. rewrite <- Hp1 in Hin.
    assert (w unit ∈ w <$> as_completed yielded1 (units self df)) as Hw
      by (apply list_elem_of_fmap; eauto).
    rewrite Hres1 in Hw. apply list_elem_of_fmap in Hw as (u & Hu & _).
    unfold res. by rewrite Hu. }
  assert (∀ yielded,
            w <$> as_completed yielded (units self df)
            = Return <$> (res <$> as_completed yielded (units self df)))
    as Hw.
  { intros yielded. rewrite <- list_fmap_compose.
    apply list_fmap_ext. intros i unit Hi. simpl. apply Hall.
    eapply as_completed_elem, list_elem_of_lookup_2, Hi. }
  assert (results1 = res <$> as_completed yielded1 (units self df)) as ->.
  { rewrite Hw in Hres1. symmetry. by apply (inj (fmap Return)). }
  exists (convert_results_to_df self df
            (flatten (res <$> as_completed yielded2 (units self df)))
            names).
  split; [|split; [|split]].
  - unfold Parallelizer.run. fold names. fold w.
    destruct (run_batch_size self Hb) as [-> ->].
    simpl. by rewrite as_completed_fmap, Hw, sequence_fmap_Return.
  - apply convert_results_to_df_columns.
  - rewrite !convert_results_to_df_records, !flatten_result_rows.
    by rewrite Hp1, Hp2.
  - by intros ->.
Qed.

End properties.

(** ** The store *)







Section store_properties.

Variable repr_str : string → string.
Context (self : Store.DataFrameParallelizer).
Hypothesis Hfun : function_preserves (Store.function self).
Hypothesis Hparser :
  ∀ parser, Store.batch_response_parser self = Some parser →
            parser_preserves parser.






End store_properties.

(** * Further properties of the code *)

Section further_properties.

Variable repr_str : string → string.

Local Abbreviation apply_function_and_parse_response :=
  (apply_function_and_parse_response repr_str).
Local Abbreviation batch_branch := (batch_branch repr_str).
Local Abbreviation run := (run repr_str).
Local Abbreviation len_generator := (len_generator repr_str).
Local Abbreviation ValueError := (ValueError repr_str).
Local Abbreviation TypeError := (TypeError repr_str).
Local Abbreviation KeyError := (KeyError repr_str).
Local Abbreviation BatchError := (BatchError repr_str).
Local Abbreviation py_str_list := (py_str_list repr_str).

(** ** Exceptions that leave [run] *)

(** An exception outside the [except] clause leaves the wrapper. *)
Lemma handle_uncaught self names e output :
  catches (exceptions_to_catch self ++ [BatchError_class]) e = false →
  handle self names e output = Raise e.
Proof. unfold handle. by intros ->. Qed.

Lemma catches_app classes e :
  catches (classes ++ [BatchError_class]) e
  = catches classes e || bool_decide (BatchError_class ∈ exn_mro e).
Proof. unfold catches. rewrite existsb_app. simpl. by rewrite orb_false_r. Qed.

(** When the invocation of a unit raises, [run] raises, with the exception
    of some invocation. *)
Lemma run_Raise self yielded df unit e :
  yield_order (length (units self df)) yielded →
  unit ∈ units self df →
  apply_function_and_parse_response self
    (get_unique_output_column_names self (columns df)) unit.1 unit.2
  = Raise e →
  ∃ e',
    run self yielded df = Raise e' ∧
    ∃ unit', unit' ∈ units self df ∧
      apply_function_and_parse_response self
        (get_unique_output_column_names self (columns df)) unit'.1 unit'.2
      = Raise e'.
Proof.
  intros Hc Hin Hunit.
  set (names := get_unique_output_column_names self (columns df)) in *.
  set (w := λ unit : option Row * option (list Row),
              apply_function_and_parse_response self names unit.1 unit.2).
  pose proof (as_completed_Permutation yielded (w <$> units self df)) as Hp.
  rewrite length_fmap in Hp. specialize (Hp Hc).
  assert (Raise e ∈ as_completed yielded (w <$> units self df)) as Hraise.
  { rewrite Hp. apply list_elem_of_fmap. by exists unit. }
  apply sequence_Raise in Hraise as (e' & Hs & He').
  rewrite Hp in He'. apply list_elem_of_fmap in He' as (unit' & Hw & Hin').
  exists e'. split; [|by exists unit'].
  unfold Parallelizer.run. fold names. fold w.
  destruct (run_batch_size self) as [-> ->];
    [by eapply units_nonempty_batch_size|].
  simpl. by rewrite Hs.
Qed.

(** X1.  Log mode isolates the exceptions of the catch set only: when the user
    function raises, on some unit, an exception that is an instance neither
    of a class of [exceptions_to_catch] nor of [BatchError], [run] returns
    no table, in log mode as in fail mode; it raises an exception raised by
    the invocation of some unit. *)
Theorem uncaught_exception_propagates self yielded df unit a e :
  yield_order (length (units self df)) yielded →
  unit ∈ units self df →
  unit_arg unit = Some a →
  function self a = Raise e →
  catches (exceptions_to_catch self) e = false →
  BatchError_class ∉ exn_mro e →
  ∃ e',
    run self yielded df = Raise e' ∧
    ∃ unit', unit' ∈ units self df ∧
      apply_function_and_parse_response self
        (get_unique_output_column_names self (columns df)) unit'.1 unit'.2
      = Raise e'.
Proof.
  intros Hc Hin Ha He Hcatch Hbatch.
  apply (run_Raise _ _ _ unit e); [done..|].
  assert (catches (exceptions_to_catch self ++ [BatchError_class]) e = false)
    as Hun.
  { rewrite catches_app, Hcatch. by rewrite bool_decide_false. }
  unfold units in Hin. destruct (batch_support self).
  - apply list_elem_of_fmap in Hin as (b & -> & _). simpl in Ha.
    injection Ha as <-. simpl. rewrite apply_batch.
    unfold Parallelizer.batch_branch, deepcopy. rewrite He.
    by apply handle_uncaught.
  - apply list_elem_of_fmap in Hin as (r & -> & _). simpl in Ha.
    destruct (decide (r = ∅)) as [->|Hr]; [done|].
    rewrite bool_decide_false in Ha by done. injection Ha as <-. simpl.
    rewrite apply_row by done. rewrite He. by apply handle_uncaught.
Qed.

(** X2.  [run] on a table without rows returns a table without rows,
    whatever the user function and the order of the futures: in row mode,
    and in batch mode with a batch size that [islice] accepts. *)
Theorem empty_table self yielded df :
  records df = [] →
  (batch_support self = true → (0 < batch_size self ≤ sys_maxsize)%Z) →
  ∃ out, run self yielded df = Return out ∧ records out = [].
Proof.
  intros Hnil Hb. eexists. split.
  - unfold Parallelizer.run.
    destruct (run_batch_size self Hb) as [-> ->]. simpl.
    assert (units self df = []) as ->.
    { unfold units, df_row_batch_generator, df_row_generator. rewrite Hnil.
      destruct (batch_support self); [|done].
      case_bool_decide; [|done].
      unfold chunked. simpl. by rewrite take_nil. }
    simpl. unfold as_completed.
    assert (omap (λ i, ([] : list (outcome unit_result)) !! i) yielded = [])
      as ->.
    { induction yielded as [|i c IH]; [done|]. csimpl. by rewrite IH. }
    simpl. reflexivity.
  - by rewrite convert_results_to_df_records.
Qed.

(** ** The schema and the cells of the output *)

(** The columns of the table that [_convert_results_to_df] builds. *)
Lemma convert_results_to_df_schema self df results names :
  NoDup (fields names) →
  (∀ c, c ∈ fields names → c ∉ columns df) →
  columns (convert_results_to_df self df results names)
  = columns df ++ response names ::
      match error_handling self with
      | FAIL => []
      | LOG =>
          error_message names :: error_type names ::
          (if verbose self then [error_raw names] else [])
      end.
Proof.
  intros Hnd Hfresh.
  destruct (fields_NoDup names Hnd) as (?&?&?&?&?&?).
  assert (∀ labels, labels ⊆ fields names →
            filter (λ c, c ∉ labels) (columns df) = columns df) as Hcols.
  { intros labels Hsub. apply filter_all, Forall_forall.
    intros c Hc Hin. by eapply Hfresh; [apply Hsub|]. }
  unfold convert_results_to_df, fields.
  destruct (error_handling self), (verbose self); simpl;
    rewrite ?filter_app, ?Hcols
      by auto using error_raw_subseteq_fields, error_columns_subseteq_fields;
    try done; f_equal;
    repeat (rewrite ?filter_cons, ?filter_nil;
            case_decide as Hd; rewrite ?elem_of_cons, ?elem_of_nil in Hd;
            try (exfalso; intuition congruence); clear Hd);
    by rewrite ?filter_nil.
Qed.

(** X3.  The schema of the output: the columns of the input table, in order,
    followed by the response column and, in log mode, by the error message
    and error type columns and, when verbose, the raw error column. *)
Theorem output_columns self yielded df out :
  run self yielded df = Return out →
  columns out
  = columns df
    ++ response (get_unique_output_column_names self (columns df)) ::
       match error_handling self with
       | FAIL => []
       | LOG =>
           error_message (get_unique_output_column_names self (columns df)) ::
           error_type (get_unique_output_column_names self (columns df)) ::
           (if verbose self
            then [error_raw (get_unique_output_column_names self (columns df))]
            else [])
       end.
Proof.
  intros (_ & results & _ & ->)%run_Return.
  apply convert_results_to_df_schema.
  - apply get_unique_output_column_names_NoDup.
  - apply get_unique_output_column_names_fresh.
Qed.

(** In the model, a cell of an output column that stays in the table is
    the text of the value of the result row, taken cell by cell. *)
Lemma output_record_text self df names (r : Row) c :
  NoDup (fields names) →
  (∀ c, c ∈ fields names → c ∉ columns df) →
  c ∈ fields names →
  c ∈ columns (convert_results_to_df self df [] names) →
  output_record self df names r !! c
  = Some (VStr (py_str (default VNaN (r !! c)))).
Proof.
  intros Hnd Hfresh Hc Hcol.
  rewrite convert_results_to_df_schema in Hcol by done.
  apply elem_of_app in Hcol as [Hcol|Hcol]; [by apply Hfresh in Hc|].
  destruct (fields_NoDup names Hnd) as (?&?&?&?&?&?).
  assert (foldr (λ c acc, alter (λ v, VStr (py_str v)) c acc)
            (reindex_row (columns df ++ fields names) r)
            (filter (λ c, c ∉ columns df) (fields names)) !! c
          = Some (VStr (py_str (default VNaN (r !! c))))) as Hl.
  { assert (filter (λ c, c ∉ columns df) (fields names) = fields names)
      as ->.
    { apply filter_all, Forall_forall. intros ??. by apply Hfresh. }
    rewrite astype_lookup by done. rewrite decide_True by done.
    rewrite reindex_row_lookup.
    by rewrite decide_True by (apply elem_of_app; by right). }
  unfold output_record.
  destruct (error_handling self), (verbose self);
    rewrite ?foldr_delete_lookup;
    rewrite ?elem_of_cons, ?elem_of_nil in Hcol;
    repeat (case_decide as Hd; rewrite ?elem_of_cons, ?elem_of_nil in Hd;
            try (exfalso; intuition congruence); clear Hd);
    done.
Qed.

(** X4.  The added columns hold text: in a table returned by [run], every
    cell of a column that is not a column of the input table is a string,
    whatever the user function or the parser returned. *)
Theorem output_cells_are_text self yielded df out (r : Row) c :
  run self yielded df = Return out →
  r ∈ records out →
  c ∈ columns out →
  c ∉ columns df →
  ∃ s, r !! c = Some (VStr s).
Proof.
  intros (_ & results & _ & ->)%run_Return Hr Hc Hnew.
  set (names := get_unique_output_column_names self (columns df)) in *.
  assert (NoDup (fields names)) as Hnd
    by apply get_unique_output_column_names_NoDup.
  assert (∀ c, c ∈ fields names → c ∉ columns df) as Hfresh
    by apply get_unique_output_column_names_fresh.
  rewrite convert_results_to_df_records in Hr.
  apply list_elem_of_fmap in Hr as (r0 & -> & _).
  eexists. apply output_record_text; [done..| |].
  - rewrite convert_results_to_df_schema in Hc by done.
    apply elem_of_app in Hc as [?|Hc]; [done|]. unfold fields.
    destruct (error_handling self), (verbose self);
      rewrite ?elem_of_cons, ?elem_of_nil in Hc;
      rewrite !elem_of_cons; intuition.
  - by rewrite (convert_results_to_df_columns _ _ [] (flatten results)).
Qed.

(** X5.  In batch mode a batch size of zero or less is rejected before any unit
    is submitted: [run] raises a [ZeroDivisionError] for zero (the number
    of batches cannot be computed) and a [ValueError] for a negative size
    (the rows cannot be grouped), whatever the table. *)
Theorem batch_size_rejected self yielded df :
  batch_support self = true →
  (batch_size self ≤ 0)%Z →
  ∃ e,
    run self yielded df = Raise e ∧
    exn_qualname e
    = if bool_decide (batch_size self = 0%Z) then "ZeroDivisionError"
      else "ValueError".
Proof.
  intros Hbatch Hsize. unfold Parallelizer.run. rewrite Hbatch. simpl.
  destruct (decide (batch_size self = 0%Z)) as [Hz|Hz].
  - rewrite !(bool_decide_true (batch_size self = 0%Z)) by done.
    by eexists.
  - rewrite !(bool_decide_false (batch_size self = 0%Z)) by done.
    rewrite bool_decide_true by lia. by eexists.
Qed.

(** X6.  In row mode a table that has rows but no column cannot be processed:
    each row is an empty dictionary, which the wrapper takes for a missing
    row, and [run] raises a [TypeError] -- outside the [try] block, so in
    log mode too and whatever the catch set. *)
Theorem rows_without_columns self yielded df :
  batch_support self = false →
  columns df = [] →
  records df ≠ [] →
  yield_order (length (units self df)) yielded →
  run self yielded df
  = Raise (TypeError "'NoneType' object is not iterable").
Proof.
  intros Hrow Hcols Hrows Hc.
  assert (∀ unit, unit ∈ units self df → unit = (Some ∅, None))
    as Hunits.
  { unfold units, df_row_generator. rewrite Hrow, Hcols.
    intros unit (r & -> & (r0 & -> & _)%list_elem_of_fmap)%list_elem_of_fmap.
    done. }
  assert (∃ unit, unit ∈ units self df) as [unit Hin].
  { unfold units, df_row_generator. rewrite Hrow.
    destruct (records df) as [|r0 rs]; [done|].
    eexists. csimpl. apply elem_of_cons. by left. }
  destruct (run_Raise self yielded df unit
              (TypeError "'NoneType' object is not iterable"))
    as (e' & -> & unit' & Hin' & He'); [done..| |].
  - by rewrite (Hunits unit Hin).
  - rewrite (Hunits unit' Hin') in He'. simpl in He'.
    rewrite apply_row_empty in He'. by injection He' as <-.
Qed.

(** ** The batches *)

Lemma chunked_go_lookup {A} fuel n (l : list A) i :
  0 < n → length l < fuel →
  chunked_go fuel n l !! i
  = if decide (i * n < length l) then Some (take n (drop (i * n) l))
    else None.
Proof.
  intros Hn. revert l i. induction fuel as [|fuel IH]; intros l i Hl; [lia|].
  simpl. destruct (take n l) as [|x chunk] eqn:Ht.
  - assert (l = []) as ->.
    { destruct l; [done|]. destruct n; [lia | done]. }
    rewrite decide_False by (simpl; lia). done.
  - assert (0 < length l) as Hpos.
    { destruct l; [by rewrite take_nil in Ht | simpl; lia]. }
    destruct i as [|i]; simpl.
    + rewrite decide_True by done. by rewrite drop_0, Ht.
    + rewrite IH by (rewrite length_drop; lia).
      rewrite length_drop, drop_drop.
      destruct (decide (i * n < length l - n)).
      * rewrite decide_True by lia. done.
      * rewrite decide_False by lia. done.
Qed.

Lemma chunked_lookup {A} n (l : list A) i :
  0 < n →
  chunked l n !! i
  = if decide (i * n < length l) then Some (take n (drop (i * n) l))
    else None.
Proof. intros. apply chunked_go_lookup; [done | lia]. Qed.

Lemma chunked_go_length {A} fuel n (l : list A) :
  0 < n → length l < fuel →
  length (chunked_go fuel n l) = (length l + n - 1) `div` n.
Proof.
  intros Hn. revert l. induction fuel as [|fuel IH]; intros l Hl; [lia|].
  simpl. destruct (take n l) as [|x chunk] eqn:Ht.
  - assert (l = []) as ->.
    { destruct l; [done|]. destruct n; [lia | done]. }
    simpl. symmetry. apply Nat.div_small. lia.
  - assert (0 < length l) as Hpos.
    { destruct l; [by rewrite take_nil in Ht | simpl; lia]. }
    simpl. rewrite IH by (rewrite length_drop; lia). rewrite length_drop.
    destruct (decide (n ≤ length l)) as [Hle|Hlt].
    + replace (length l + n - 1) with ((length l - n + n - 1) + 1 * n) by lia.
      rewrite Nat.div_add by lia. lia.
    + replace (length l - n + n - 1) with (n - 1) by lia.
      rewrite Nat.div_small by lia.
      apply (Nat.div_unique _ _ _ (length l - 1)); lia.
Qed.

Lemma chunked_length {A} n (l : list A) :
  0 < n → length (chunked l n) = (length l + n - 1) `div` n.
Proof. intros. apply chunked_go_length; [done | lia]. Qed.

(** X7.  The batches: with a positive batch size that [islice] accepts, the
    units of batch mode are the consecutive groups of [batch_size] rows of
    the table, in order; no batch is empty, none has more than [batch_size]
    rows, and only the last one may have fewer. *)
Theorem batches_bounded self df :
  batch_support self = true →
  (0 < batch_size self ≤ sys_maxsize)%Z →
  mjoin (unit_rows <$> units self df) = df_row_generator df ∧
  ∀ i unit,
    units self df !! i = Some unit →
    ∃ batch,
      unit = (None, Some batch) ∧
      batch ≠ [] ∧
      (Z.of_nat (length batch) ≤ batch_size self)%Z ∧
      (S i < length (units self df) →
       Z.of_nat (length batch) = batch_size self).
Proof.
  intros Hbatch Hsize. split; [apply units_rows; by intros _|].
  unfold units, df_row_batch_generator. rewrite Hbatch.
  rewrite bool_decide_true by lia. intros i unit.
  rewrite length_fmap, list_lookup_fmap.
  set (n := Z.to_nat (batch_size self)).
  set (rows := df_row_generator df).
  assert (0 < n) as Hn by (unfold n; lia).
  destruct (chunked rows n !! i) as [batch|] eqn:Hi; [|done].
  intros [= <-]. exists batch. split; [done|].
  pose proof (chunked_Forall n rows) as Hall.
  rewrite Forall_forall in Hall.
  destruct (Hall batch) as [Hne Hlen]; [by eapply list_elem_of_lookup_2|].
  split; [done|]. split; [unfold n in Hlen; lia|].
  intros Hnext.
  assert (is_Some (chunked rows n !! S i)) as [next Hnext'].
  { by apply lookup_lt_is_Some. }
  rewrite chunked_lookup in Hi, Hnext' by done.
  case_decide as Hlt; [|done]. case_decide as Hlt'; [|done].
  injection Hi as <-. rewrite length_take, length_drop. unfold n in *. lia.
Qed.

(** X8.  The total of the progress bar is the number of units that [run]
    submits: with a positive batch size, [len_generator] is the number of
    batches; in row mode it is the number of rows.  Stated for the tables
    and batch sizes on which the float quotient is exact. *)
Theorem len_generator_units self df :
  (Z.of_nat (length (records df)) < 2 ^ 53)%Z →
  (batch_support self = true → (0 < batch_size self < 2 ^ 53)%Z) →
  len_generator self df = Return (Z.of_nat (length (units self df))).
Proof.
  intros _ Hsize.
  unfold Parallelizer.len_generator, units, df_row_batch_generator.
  destruct (batch_support self).
  - specialize (Hsize eq_refl). rewrite bool_decide_false by lia.
    rewrite bool_decide_true by (unfold sys_maxsize; lia).
    f_equal. rewrite length_fmap, chunked_length by lia.
    unfold df_row_generator. rewrite length_fmap.
    set (N := length (records df)).
    set (n := Z.to_nat (batch_size self)).
    assert (batch_size self = Z.of_nat n) as -> by (unfold n; lia).
    assert (0 < n) as Hn by (unfold n; lia).
    pose proof (Nat.div_mod (N + n - 1) n) as Hdm.
    pose proof (Nat.mod_upper_bound (N + n - 1) n) as Hub.
    set (q := (N + n - 1) `div` n) in *.
    set (r := (N + n - 1) `mod` n) in *.
    assert ((- Z.of_nat N) `div` Z.of_nat n = - Z.of_nat q)%Z as ->; [|lia].
    symmetry.
    apply (Z.div_unique _ _ _ (Z.of_nat n * Z.of_nat q - Z.of_nat N)); nia.
  - unfold df_row_generator. by rewrite !length_fmap.
Qed.

(** X9.  A failed batch: in log mode, when the user function raises an exception
    of the catch set on a batch, the wrapper returns one row per row of the
    batch, in order, each with an empty response, the message, type and raw
    form of that exception, and its other cells as they were.  The parser
    is not called. *)
Theorem batch_function_error self names batch e :
  error_handling self = LOG →
  NoDup (fields names) →
  function self (ArgBatch batch) = Raise e →
  catches (exceptions_to_catch self) e = true →
  ∃ output,
    apply_function_and_parse_response self names None (Some batch)
    = Return (UBatch output) ∧
    Forall2 (λ (row out : Row),
               out !! response names = Some (VStr "") ∧
               out !! error_message names = Some (VStr (exn_str e)) ∧
               out !! error_type names = Some (VStr (error_type_of e)) ∧
               out !! error_raw names = Some (VStr (exn_args e)) ∧
               ∀ c, c ∉ fields names → out !! c = row !! c)
            batch output.
Proof.
  intros Hlog Hnd He Hcatch.
  destruct (fields_NoDup names Hnd) as (?&?&?&?&?&?).
  exists (set_error names e <$> (init_output names <$> batch)). split.
  - rewrite apply_batch. unfold Parallelizer.batch_branch, deepcopy.
    rewrite He. by rewrite handle_LOG.
  - apply Forall2_fmap_r, Forall2_fmap_r, Forall_Forall2_diag, Forall_forall.
    intros row _. unfold compose.
    pose proof (response_in_fields names).
    rewrite !set_error_lookup, !init_output_lookup.
    repeat split; repeat case_decide; try done; try congruence.
    intros c Hc. rewrite set_error_lookup, init_output_lookup.
    rewrite (decide_False _ _ Hc).
    unfold fields in Hc. rewrite !not_elem_of_cons in Hc.
    destruct Hc as (?&?&?&?&_). by rewrite !decide_False by done.
Qed.

Lemma mapM_get_error_message_missing names (output : list Row) :
  Exists (λ row, row !! error_message names = None) output →
  mapM (get_error_message repr_str names) output
  = Raise (KeyError (error_message names)).
Proof.
  induction 1 as [row output Hrow|row output _ IH].
  - cbn [mapM]. unfold get_error_message. by rewrite Hrow.
  - cbn [mapM]. rewrite IH. unfold get_error_message.
    by destruct (row !! error_message names).
Qed.

(** X10.  A parsed row without error message: when a row returned by the batch
    response parser has no error message key, the invocation ends as a
    [KeyError] on that key.  Unless [KeyError] (or a class above it) is in
    the catch set the error leaves the wrapper, in log mode too; when it is
    caught in log mode, every parsed row is marked with it. *)
Theorem parser_missing_error_message self names batch raw_response parser
    output :
  function self (ArgBatch batch) = Return raw_response →
  batch_response_parser self = Some parser →
  parser batch raw_response names = Return output →
  Exists (λ row, row !! error_message names = None) output →
  (catches (exceptions_to_catch self) (KeyError (error_message names)) = false
   → apply_function_and_parse_response self names None (Some batch)
     = Raise (KeyError (error_message names))) ∧
  (catches (exceptions_to_catch self) (KeyError (error_message names)) = true
   → error_handling self = LOG
   → apply_function_and_parse_response self names None (Some batch)
     = Return (UBatch (set_error names (KeyError (error_message names))
                         <$> output))).
Proof.
  intros Hf Hp Hout Hex.
  assert (apply_function_and_parse_response self names None (Some batch)
          = handle self names (KeyError (error_message names))
              (UBatch output)) as ->.
  { rewrite apply_batch. unfold Parallelizer.batch_branch.
    by rewrite Hf, Hp, Hout, mapM_get_error_message_missing. }
  split.
  - intros Hcatch. apply handle_uncaught.
    by rewrite catches_app, Hcatch.
  - intros Hcatch Hlog. by apply handle_LOG.
Qed.

(** X11.  The outcome of a parsed batch whose rows all have an error message
    entry.  When no message is true (each is [None], empty, zero or false)
    the wrapper returns the list of the parser as it is, in both modes: the
    copy of the batch with its initialised output columns is not used.
    When some message is true, the invocation ends in fail mode as a
    [BatchError] whose message is the text of the list of the true
    messages, in the order of the rows. *)
Theorem batch_parsed self names batch raw_response parser output :
  function self (ArgBatch batch) = Return raw_response →
  batch_response_parser self = Some parser →
  parser batch raw_response names = Return output →
  Forall (λ row, is_Some (row !! error_message names)) output →
  let errors :=
    filter (λ v, truthy v = true)
           ((λ row, default VNone (row !! error_message names)) <$> output) in
  (errors = [] →
   apply_function_and_parse_response self names None (Some batch)
   = Return (UBatch output)) ∧
  (errors ≠ [] → error_handling self = FAIL →
   apply_function_and_parse_response self names None (Some batch)
   = Raise (BatchError (py_str_list errors))).
Proof.
  intros Hf Hp Hout Hall errors.
  rewrite apply_batch. unfold Parallelizer.batch_branch.
  rewrite Hf, Hp, Hout, mapM_get_error_message by done.
  fold errors. destruct errors as [|v errors']; split; try done.
  intros _ Hfail. by apply handle_FAIL.
Qed.

(** X12.  Row mode ignores the batch settings: without batch support, the
    outcome of [run] depends on the user function, the error handling, the
    catch set, the column prefix and the verbosity only -- not on the batch
    size (be it zero or negative), the batch response parser or the number
    of workers. *)
Theorem row_mode_ignores_batch_settings self1 self2 yielded df :
  batch_support self1 = false →
  batch_support self2 = false →
  function self1 = function self2 →
  error_handling self1 = error_handling self2 →
  exceptions_to_catch self1 = exceptions_to_catch self2 →
  output_column_prefix self1 = output_column_prefix self2 →
  verbose self1 = verbose self2 →
  run self1 yielded df = run self2 yielded df.
Proof.
  destruct self1 as [f1 eh1 exc1 w1 bs1 size1 p1 prefix1 v1].
  destruct self2 as [f2 eh2 exc2 w2 bs2 size2 p2 prefix2 v2].
  simpl. intros -> -> -> -> -> -> ->.
  unfold Parallelizer.run, units, get_unique_output_column_names,
    convert_results_to_df; simpl.
  do 3 f_equal. apply list_fmap_ext. intros i unit Hi.
  apply list_lookup_fmap_Some in Hi as (r & -> & _). simpl.
  destruct (decide (r = ∅)) as [->|Hr].
  - by rewrite !apply_row_empty.
  - by rewrite !apply_row by done.
Qed.

(** ** The summary *)

Lemma count_filter {A} (p : A → bool) (l : list A) :
  count p l = length (filter (λ x, p x = true) l).
Proof.
  induction l as [|x l IH]; [done|]. simpl. rewrite filter_cons.
  destruct (p x) eqn:Hp.
  - rewrite decide_True by done. simpl. by rewrite IH.
  - rewrite decide_False by done. by rewrite IH.
Qed.

Lemma length_filter_bool {A} (p : A → bool) (l : list A) :
  length (filter (λ x, p x = true) l) + length (filter (λ x, p x = false) l)
  = length l.
Proof.
  induction l as [|x l IH]; [done|].
  rewrite !filter_cons. destruct (p x); simpl; lia.
Qed.

Lemma count_ext {A} (p q : A → bool) (l : list A) :
  (∀ x, x ∈ l → p x = q x) → count p l = count q l.
Proof.
  induction l as [|x l IH]; intros H; [done|]. simpl.
  rewrite H by (apply elem_of_cons; by left).
  rewrite IH; [done|]. intros ??. apply H, elem_of_cons; by right.
Qed.

Lemma num_error_count names output_df :
  num_error names output_df
  = count (empty_field (response names)) (records output_df).
Proof.
  unfold num_error. rewrite count_filter. f_equal.
  apply list_filter_iff. intros r. unfold empty_field.
  by rewrite bool_decide_eq_true.
Qed.

(** The rows of a table are not empty dictionaries when it has a column. *)
Lemma df_row_generator_ne df r :
  columns df ≠ [] → r ∈ df_row_generator df → r ≠ ∅.
Proof. intros ? (? & -> & _)%list_elem_of_fmap. by apply reindex_row_ne. Qed.

(** The row that the wrapper returns in log mode and row mode when the
    exceptions of the user function are of the catch set. *)
Lemma apply_row_LOG self names df :
  error_handling self = LOG →
  columns df ≠ [] →
  (∀ r e, r ∈ df_row_generator df → function self (ArgRow r) = Raise e →
          catches (exceptions_to_catch self) e = true) →
  ∀ r, r ∈ df_row_generator df →
    apply_function_and_parse_response self names (Some r) None
    = Return (URow match function self (ArgRow r) with
                   | Return v => <[response names := v]> (init_output names r)
                   | Raise e => set_error names e (init_output names r)
                   end).
Proof.
  intros Hlog Hcols Hcatch r Hr.
  rewrite apply_row by by eapply df_row_generator_ne.
  destruct (function self (ArgRow r)) as [v|e] eqn:Hf; [done|].
  apply handle_LOG; [done|]. by eapply Hcatch.
Qed.

(** X13.  The summary of a run in row mode and log mode, on a table with at
    least one column, when every exception that the user function raises
    on a row of the table is of the catch set: [run] returns a table, the
    number of errors it logs is the number of rows on which the user
    function raised or returned a value whose text is empty, and the
    number of successes is the number of the other rows. *)
Theorem run_summary self yielded df :
  error_handling self = LOG →
  batch_support self = false →
  columns df ≠ [] →
  yield_order (length (units self df)) yielded →
  (∀ r e, r ∈ df_row_generator df → function self (ArgRow r) = Raise e →
          catches (exceptions_to_catch self) e = true) →
  ∃ out,
    run self yielded df = Return out ∧
    num_error (get_unique_output_column_names self (columns df)) out
    = length (filter (λ r, empty_response self r = true)
                     (df_row_generator df)) ∧
    num_success df (get_unique_output_column_names self (columns df)) out
    = Z.of_nat (length (filter (λ r, empty_response self r = false)
                               (df_row_generator df))).
Proof.
  intros Hlog Hrow Hcols Hc Hcatch.
  set (names := get_unique_output_column_names self (columns df)).
  assert (NoDup (fields names)) as Hnd
    by apply get_unique_output_column_names_NoDup.
  assert (∀ c, c ∈ fields names → c ∉ columns df) as Hfresh
    by apply get_unique_output_column_names_fresh.
  destruct (fields_NoDup names Hnd) as (?&?&?&?&?&?).
  assert (length (units self df) = length (df_row_generator df)) as Hunits.
  { unfold units. rewrite Hrow. by rewrite length_fmap. }
  set (g := λ r : Row,
         match function self (ArgRow r) with
         | Return v => <[response names := v]> (init_output names r)
         | Raise e => set_error names e (init_output names r)
         end).
  assert (num_error names
            (convert_results_to_df self df
               (g <$> as_completed yielded (df_row_generator df)) names)
          = length (filter (λ r, empty_response self r = true)
                           (df_row_generator df))) as Herr.
  { rewrite num_error_count, convert_results_to_df_records, !count_fmap.
    pose proof (as_completed_Permutation yielded (df_row_generator df))
      as Hperm.
    rewrite <- Hunits in Hperm. rewrite (Hperm Hc), <- count_filter.
    apply count_ext. intros r _. unfold compose, g, empty_response.
    destruct (function self (ArgRow r)) as [v|e].
    - apply empty_field_lookup.
      rewrite (success_output_lookup self df names Hfresh Hlog Hnd)
        by apply response_in_fields.
      rewrite decide_False by (by intros [_ ?]). by rewrite decide_True.
    - erewrite empty_field_lookup; [by rewrite bool_decide_true|].
      rewrite (error_output_lookup self df names Hfresh Hlog Hnd)
        by apply response_in_fields.
      rewrite decide_False by (by intros [_ ?]).
      by rewrite !decide_False by done. }
  eexists. split; [|split].
  - apply run_rows; [done|]. by apply apply_row_LOG.
  - done.
  - unfold num_success. fold names g. rewrite Herr.
    assert (length (records df) = length (df_row_generator df)) as ->
      by (unfold df_row_generator; by rewrite length_fmap).
    pose proof (length_filter_bool (empty_response self)
                  (df_row_generator df)).
    lia.
Qed.

(** The cells of the table that [_convert_results_to_df] builds: for a
    column of the table, the value of the result row ([nan] when it has
    none), as it is for an input column and as text for an output column;
    no cell for any other key. *)
Lemma output_record_cell self df names (r : Row) c :
  NoDup (fields names) →
  (∀ c, c ∈ fields names → c ∉ columns df) →
  output_record self df names r !! c
  = if decide (c ∈ columns (convert_results_to_df self df [] names)) then
      Some (if decide (c ∈ columns df) then default VNaN (r !! c)
            else VStr (py_str (default VNaN (r !! c))))
    else None.
Proof.
  intros Hnd Hfresh.
  destruct (decide (c ∈ fields names)) as [Hf|Hf].
  - assert (c ∉ columns df) as Hc by by apply Hfresh.
    rewrite (decide_False (P := c ∈ columns df)) by done.
    case_decide as Hcol; [by apply output_record_text|].
    rewrite convert_results_to_df_schema in Hcol by done.
    destruct (fields_NoDup names Hnd) as (?&?&?&?&?&?).
    unfold fields in Hf. rewrite !elem_of_cons, elem_of_nil in Hf.
    rewrite elem_of_app in Hcol. unfold output_record.
    destruct (error_handling self), (verbose self);
      rewrite ?elem_of_cons, ?elem_of_nil in Hcol;
      rewrite ?foldr_delete_lookup;
      repeat (case_decide as Hd; rewrite ?elem_of_cons, ?elem_of_nil in Hd;
              try done; try (exfalso; intuition congruence); clear Hd);
      try (exfalso; intuition congruence).
  - assert (foldr (λ c acc, alter (λ v, VStr (py_str v)) c acc)
              (reindex_row (columns df ++ fields names) r)
              (filter (λ c, c ∉ columns df) (fields names)) !! c
            = if decide (c ∈ columns df) then Some (default VNaN (r !! c))
              else None) as Hl.
    { rewrite astype_lookup_ne by (by intros [_ ?]%list_elem_of_filter).
      rewrite reindex_row_lookup. destruct (decide (c ∈ columns df)).
      - by rewrite decide_True by (apply elem_of_app; by left).
      - rewrite decide_False; [done|]. by intros [?|?]%elem_of_app. }
    assert (output_record self df names r !! c
            = if decide (c ∈ columns df) then Some (default VNaN (r !! c))
              else None) as ->.
    { unfold output_record.
      assert (∀ labels (r' : Row),
                labels ⊆ fields names →
                foldr delete r' labels !! c = r' !! c) as Hdel.
      { intros labels r' Hsub. rewrite foldr_delete_lookup.
        rewrite decide_False; [done|]. intros ?. by apply Hf, Hsub. }
      destruct (error_handling self), (verbose self);
        rewrite ?Hdel;
        auto using error_raw_subseteq_fields, error_columns_subseteq_fields. }
    rewrite convert_results_to_df_schema by done.
    destruct (decide (c ∈ columns df)) as [Hc|Hc].
    + by rewrite decide_True by (apply elem_of_app; by left).
    + rewrite decide_False; [done|]. rewrite elem_of_app.
      intros [?|Hin]; [done|]. apply Hf. unfold fields.
      destruct (error_handling self), (verbose self);
        rewrite ?elem_of_cons, ?elem_of_nil in Hin;
        rewrite !elem_of_cons; intuition.
Qed.


(** ** Deep copies *)

Lemma deepcopy_row_copy (r : Store.Row) (σ : Store.store) :
  map_Forall (λ _, Store.cell_closed σ) r →
  σ ⊆ (Store.deepcopy r σ).2 ∧
  ∀ c, deep_copy_of σ r (Store.deepcopy r σ).2 (Store.deepcopy r σ).1 c.
Proof.
  unfold Store.deepcopy, Store.deepcopy_row, deep_copy_of.
  set (f := λ (k : string) (c : Store.cell)
              (acc : Store.Row * Store.copy_state),
              let '(c', st') := Store.deepcopy_cell c acc.2 in
              (<[k := c']> acc.1, st')).
  set (P := λ (acc : Store.Row * Store.copy_state) (m : Store.Row),
              map_Forall (λ _, Store.cell_closed σ) m →
              σ ⊆ acc.2.2 ∧
              (∀ l l', acc.2.1 !! l = Some l' →
                       (l' ∉ dom σ) ∧ acc.2.2 !! l' = σ !! l ∧
                       is_Some (σ !! l)) ∧
              (∀ c, match m !! c with
                    | Some (Store.Imm v) => acc.1 !! c = Some (Store.Imm v)
                    | Some (Store.Ref l) =>
                        ∃ l', acc.1 !! c = Some (Store.Ref l') ∧
                              (l' ∉ dom σ) ∧ acc.2.2 !! l' = σ !! l
                    | None => acc.1 !! c = None
                    end)).
  intros Hclosed.
  match goal with
  | |- context [map_fold ?g ?b r] => assert (P (map_fold g b r) r) as HP
  end.
  { apply (map_fold_weak_ind P); clear r Hclosed.
    - intros _. split; [done|]. split; [done|].
      intros c. by rewrite !lookup_empty.
    - intros k x m [r' [memo σ1]] Hk IH Hclosed.
      apply map_Forall_insert in Hclosed as [Hx Hm]; [|done].
      destruct (IH Hm) as (Hsub & Hmemo & Hcells). simpl in *.
      destruct x as [v|l]; unfold f; simpl.
      + split; [done|]. split; [done|]. intros c.
        rewrite !lookup_insert. case_decide; [done | apply Hcells].
      + destruct Hx as [o Ho].
        destruct (memo !! l) as [l'|] eqn:Hl; simpl.
        * split; [done|]. split; [done|]. intros c.
          rewrite !lookup_insert. case_decide; [|apply Hcells].
          destruct (Hmemo l l' Hl) as (? & ? & _). by exists l'.
        * rewrite (lookup_weaken _ _ _ _ Ho Hsub). simpl.
          set (l' := fresh (dom σ1)).
          assert (l' ∉ dom σ1) as Hfresh by apply is_fresh.
          assert (σ1 !! l' = None) as Hnone by by apply not_elem_of_dom.
          assert (l' ∉ dom σ) as Hnew.
          { intros Hin. apply Hfresh. revert Hin.
            by apply subseteq_dom. }
          assert (∀ l0 o0, σ1 !! l0 = Some o0 →
                           <[l' := o]> σ1 !! l0 = Some o0) as Hkeep.
          { intros l0 o0 H0. rewrite lookup_insert_ne; [done|].
            intros <-. congruence. }
          split; [|split].
          -- trans σ1; [done|]. by apply insert_subseteq.
          -- intros l0 l0'. rewrite lookup_insert. case_decide as Hll.
             ++ intros [= <-]. subst l0. split; [done|].
                rewrite lookup_insert_eq. by rewrite Ho.
             ++ intros H0. destruct (Hmemo l0 l0' H0) as (? & Heq & [o0 Ho0]).
                split; [done|]. split; [|by eexists].
                rewrite Ho0 in Heq |- *. by apply Hkeep.
          -- intros c. rewrite !lookup_insert. case_decide.
             ++ exists l'. split; [done|]. split; [done|].
                rewrite lookup_insert_eq. by rewrite Ho.
             ++ specialize (Hcells c).
                destruct (m !! c) as [[v|l0]|] eqn:Hc; [done| |done].
                destruct Hcells as (l0' & ? & ? & Heq).
                exists l0'. split; [done|]. split; [done|].
                destruct (Hm c (Store.Ref l0) Hc) as [o0 Ho0].
                rewrite Ho0 in Heq |- *. by apply Hkeep. }
  match goal with
  | |- context [map_fold ?g ?b r] =>
      destruct (map_fold g b r) as [r' [memo σ1]]
  end.
  destruct (HP Hclosed) as (Hsub & _ & Hcells). done.
Qed.

Lemma store_init_output_lookup names (r : Store.Row) c :
  c ∉ fields names → Store.init_output names r !! c = r !! c.
Proof.
  unfold Store.init_output, fields. rewrite !not_elem_of_cons.
  intros (?&?&?&?&_). cbn [foldl]. by rewrite !lookup_insert_ne by done.
Qed.

Lemma store_set_error_lookup names e (r : Store.Row) c :
  c ∉ fields names → Store.set_error names e r !! c = r !! c.
Proof.
  unfold Store.set_error, fields. rewrite !not_elem_of_cons.
  intros (?&?&?&?&_). by rewrite !lookup_insert_ne by done.
Qed.

(** X15.  The result of a row is a deep copy of the row: when the wrapper
    returns a row, its input columns hold the immutable cells of the row it
    was given and, for each list cell, a new list object with the same
    elements; no list object of the table is shared with the result.  The
    user function is assumed not to update objects in place. *)
Theorem row_result_is_deep_copy (self : Store.DataFrameParallelizer) names
    (r : Store.Row) batch σ out σ' c :
  function_preserves (Store.function self) →
  r ≠ ∅ →
  map_Forall (λ _, Store.cell_closed σ) r →
  Store.apply_function_and_parse_response repr_str self names (Some r) batch
    σ
  = (Return (Store.URow out), σ') →
  c ∉ fields names →
  deep_copy_of σ r σ' out c.
Proof.
  intros Hfun Hr Hclosed Hres Hc.
  unfold Store.apply_function_and_parse_response in Hres.
  destruct (Store.truthy_row (Some r) && Store.truthy_batch batch); [done|].
  simpl in Hres. rewrite bool_decide_false in Hres by done. simpl in Hres.
  destruct (deepcopy_row_copy r σ Hclosed) as [Hsub Hcopy].
  destruct (Store.deepcopy r σ) as [output σ1]. simpl in *.
  pose proof (Hfun (Store.ArgRow r) σ1) as Hf.
  destruct (Store.function self (Store.ArgRow r) σ1) as [[v|e] σ2];
    simpl in Hf.
  - injection Hres as <- <-.
    assert (c ≠ response names) as Hne.
    { intros ->. apply Hc, response_in_fields. }
    specialize (Hcopy c). unfold deep_copy_of in *.
    rewrite lookup_insert_ne, store_init_output_lookup by done.
    destruct (r !! c) as [[v'|l]|] eqn:Hl; [done| |done].
    destruct Hcopy as (l' & ? & ? & Heq). exists l'.
    split; [done|]. split; [done|].
    destruct (Hclosed c (Store.Ref l) Hl) as [o Ho].
    rewrite Ho in Heq |- *. by eapply lookup_weaken.
  - unfold Store.handle in Hres.
    destruct (catches _ e); [|done].
    destruct (Store.error_handling self); [|done].
    injection Hres as <- <-.
    specialize (Hcopy c). unfold deep_copy_of in *.
    rewrite store_set_error_lookup, store_init_output_lookup by done.
    destruct (r !! c) as [[v'|l]|] eqn:Hl; [done| |done].
    destruct Hcopy as (l' & ? & ? & Heq). exists l'.
    split; [done|]. split; [done|].
    destruct (Hclosed c (Store.Ref l) Hl) as [o Ho].
    rewrite Ho in Heq |- *. by eapply lookup_weaken.
Qed.

(** ** All or nothing *)

Lemma Forall_is_Return {A} (l : list (outcome A)) :
  Forall (λ m, is_Return m = true) l → ∃ rs, l = Return <$> rs.
Proof.
  induction 1 as [|[a|e] l Hm _ [rs ->]]; [by exists []| |done].
  by exists (a :: rs).
Qed.

(** X16.  All or nothing: with a batch size that [islice] accepts and, in
    batch mode, a parser that returns the rows of its batch with their
    input cells, [run] returns a table exactly when the invocation of
    every unit returns; as soon as one invocation raises, no table is
    returned, whatever the other invocations produced. *)
Theorem run_all_or_nothing self yielded df :
  yield_order (length (units self df)) yielded →
  (batch_support self = true →
   (0 < batch_size self ≤ sys_maxsize)%Z ∧
   ∀ parser, batch_response_parser self = Some parser →
             parser_keeps_rows (columns df)
               (get_unique_output_column_names self (columns df)) parser) →
  is_Return (run self yielded df) = true ↔
  Forall (λ unit,
            is_Return
              (apply_function_and_parse_response self
                 (get_unique_output_column_names self (columns df))
                 unit.1 unit.2) = true)
         (units self df).
Proof.
  intros Hc Hb'.
  assert (batch_support self = true →
          (0 < batch_size self ≤ sys_maxsize)%Z) as Hb
    by (intros Hbatch; by destruct (Hb' Hbatch)).
  clear Hb'.
  set (names := get_unique_output_column_names self (columns df)).
  set (w := λ unit : option Row * option (list Row),
              apply_function_and_parse_response self names unit.1 unit.2).
  pose proof (as_completed_Permutation yielded (units self df) Hc) as Hp.
  split.
  - destruct (run self yielded df) as [out|e] eqn:Hrun; [|done].
    intros _. apply run_Return in Hrun as (_ & results & Hres & _).
    fold names in Hres. fold w in Hres.
    rewrite <- Hp. apply Forall_forall. intros unit Hin.
    assert (w unit ∈ w <$> as_completed yielded (units self df)) as Hw
      by (apply list_elem_of_fmap; eauto).
    rewrite Hres in Hw. apply list_elem_of_fmap in Hw as (u & Hu & _).
    fold (w unit). by rewrite Hu.
  - intros Hall. rewrite <- Hp in Hall.
    assert (Forall (λ m, is_Return m = true)
              (w <$> as_completed yielded (units self df))) as Hall'
      by by apply Forall_fmap.
    apply Forall_is_Return in Hall' as [rs Hrs].
    unfold Parallelizer.run. fold names. fold w.
    destruct (run_batch_size self Hb) as [-> ->]. simpl.
    by rewrite as_completed_fmap, Hrs, sequence_fmap_Return.
Qed.

(** X17.  The table returned by [run] is rectangular: every record has a cell
    for each column of the table and for nothing else.  A key that the
    parser adds to its rows beyond the input and output columns does not
    reach the table. *)
Theorem output_is_rectangular self yielded df out (r : Row) c :
  run self yielded df = Return out →
  r ∈ records out →
  is_Some (r !! c) ↔ c ∈ columns out.
Proof.
  intros (_ & results & _ & ->)%run_Return Hr.
  set (names := get_unique_output_column_names self (columns df)) in *.
  rewrite convert_results_to_df_records in Hr.
  apply list_elem_of_fmap in Hr as (r0 & -> & _).
  rewrite output_record_cell.
  - rewrite (convert_results_to_df_columns _ _ (flatten results) []).
    case_decide; [by split | split; [by intros [??] | done]].
  - apply get_unique_output_column_names_NoDup.
  - apply get_unique_output_column_names_fresh.
Qed.

End further_properties.

(** * The claims on the examples *)

(** Closed facts are decided by evaluation. *)
Ltac decide_by_computation :=
  apply (bool_decide_unpack _); vm_compute; exact I.

Lemma output_names_rows :
  get_unique_output_column_names log_rows (columns table3) = output_names.
Proof. vm_compute. reflexivity. Qed.

Lemma output_names_batches :
  get_unique_output_column_names log_batches (columns table3) = output_names.
Proof. vm_compute. reflexivity. Qed.

Lemma parse_ids_keeps_length names : parser_keeps_length names parse_ids.
Proof. intros batch raw_response output [= <-]. by rewrite length_fmap. Qed.

Lemma parse_ids_keeps_rows : parser_keeps_rows ["id"] output_names parse_ids.
Proof.
  intros batch raw_response output [= <-].
  rewrite <- list_fmap_compose. apply list_fmap_ext. intros i row _.
  unfold compose. apply reindex_row_ext. intros c ->%list_elem_of_singleton.
  by rewrite !lookup_insert_ne.
Qed.

(** C1, the example of section 8 of the spec: the row of id 2 fails, the
    rows of ids 1 and 3 succeed. *)
Lemma error_isolation_witness :
  ∃ out,
    run repr_plain log_rows [2; 0; 1] table3 = Return out ∧
    length (records out) = 3 ∧
    count (error_row (get_unique_output_column_names log_rows ["id"]))
          (records out) = 1 ∧
    count (success_row (get_unique_output_column_names log_rows ["id"]))
          (records out) = 2.
Proof.
  apply (error_isolation repr_plain log_rows [2; 0; 1] table3 1
           (row_of_id 2) invalid_id); try done.
  - decide_by_computation.
  - simpl. lia.
  - intros [|[|[|j]]] r' Hj Hr'; try done; vm_compute in Hr';
      injection Hr' as <-; eexists; (split; [reflexivity | done]).
Defined.

(** C1, counterexample: the user function returns the empty string on the
    row of id 1 and raises [ValueError()], caught, on the row of id 2.  The
    table has no row with a populated error message and no row with a
    populated response. *)
Lemma error_isolation_counterexample :
  yield_order (length (units quiet_rows table2)) [0; 1] ∧
  quiet_unless_2 (ArgRow (row_of_id 1)) = Return (VStr "") ∧
  quiet_unless_2 (ArgRow (row_of_id 2)) = Raise bare_ValueError ∧
  catches (exceptions_to_catch quiet_rows) bare_ValueError = true ∧
  ∃ out,
    run repr_plain quiet_rows [0; 1] table2 = Return out ∧
    columns out
    = ["id"; "output_response"; "output_error_message"; "output_error_type";
       "output_error_raw"] ∧
    cells out
    = [[Some (VInt 1); Some (VStr ""); Some (VStr ""); Some (VStr "");
        Some (VStr "")];
       [Some (VInt 2); Some (VStr ""); Some (VStr "");
        Some (VStr "ValueError"); Some (VStr "()")]] ∧
    count (error_row output_names) (records out) = 0 ∧
    count (success_row output_names) (records out) = 0.
Proof.
  split; [decide_by_computation|]. do 3 (split; [reflexivity|]).
  eexists. split; [vm_compute; reflexivity|].
  repeat split; vm_compute; reflexivity.
Qed.

(** C2, batch mode with batch size 2 on 3 rows, the future of the second
    batch yielded first. *)
Lemma run_row_count_witness :
  ∃ out,
    run repr_plain log_batches [1; 0] table3 = Return out ∧
    length (records out) = length (records table3).
Proof.
  eexists. split; [vm_compute; reflexivity|].
  apply (run_row_count repr_plain log_batches [1; 0] table3).
  - decide_by_computation.
  - intros _ parser [= <-]. apply parse_ids_keeps_length.
  - vm_compute. reflexivity.
Defined.

(** C3, the example of the spec in fail mode. *)
Lemma fail_mode_abort_witness :
  ∃ e',
    run repr_plain fail_rows [2; 0; 1] table3 = Raise e' ∧
    (∃ unit', unit' ∈ units fail_rows table3 ∧
       apply_function_and_parse_response repr_plain fail_rows
         (get_unique_output_column_names fail_rows (columns table3))
         unit'.1 unit'.2 = Raise e') ∧
    (Forall (λ unit',
               unit' = (Some (row_of_id 2), None) ∨
               is_Return
                 (apply_function_and_parse_response repr_plain fail_rows
                    (get_unique_output_column_names fail_rows
                       (columns table3))
                    unit'.1 unit'.2) = true)
            (units fail_rows table3) →
     e' = invalid_id).
Proof.
  apply (fail_mode_abort repr_plain fail_rows [2; 0; 1] table3
           (Some (row_of_id 2), None) (ArgRow (row_of_id 2)) invalid_id).
  - reflexivity.
  - decide_by_computation.
  - decide_by_computation.
  - vm_compute. reflexivity.
  - reflexivity.
Defined.



(** C6: a row and a batch, neither empty. *)
Lemma row_and_batch_rejected_witness :
  apply_function_and_parse_response repr_plain log_rows output_names
    (Some (row_of_id 1)) (Some [row_of_id 2])
  = Raise (ValueError repr_plain
             "Please use either row or batch as arguments, but not both").
Proof.
  apply (row_and_batch_rejected repr_plain log_rows output_names
           (row_of_id 1) [row_of_id 2]).
  - decide_by_computation.
  - done.
Defined.

(** C6, counterexample: with a row and an empty batch, both given, the
    wrapper raises nothing and processes the row; with neither, the error
    is a [TypeError] of the iteration over [None], not the [ValueError] of
    the check. *)
Lemma row_and_batch_rejected_counterexample :
  apply_function_and_parse_response repr_plain log_rows output_names
    (Some (row_of_id 1)) (Some [])
  = Return (URow (<[response output_names := VStr "ok-1"]>
                    (init_output output_names (row_of_id 1)))) ∧
  apply_function_and_parse_response repr_plain log_rows output_names
    None None
  = Raise (TypeError repr_plain "'NoneType' object is not iterable") ∧
  exn_qualname (TypeError repr_plain "'NoneType' object is not iterable")
  ≠ exn_qualname
      (ValueError repr_plain
         "Please use either row or batch as arguments, but not both").
Proof. split; [vm_compute; reflexivity|]. split; [reflexivity | done]. Qed.

(** C7: a batch of the rows of ids 1 and 2; the parser reports an error on
    the row of id 2. *)
Lemma batch_error_witness :
  ∃ msg,
    apply_function_and_parse_response repr_plain log_batches output_names
      None (Some [row_of_id 1; row_of_id 2])
    = Return
        (UBatch
           (set_error output_names (BatchError repr_plain msg)
              <$> [ <[error_message output_names := VStr ""]>
                      (<[response output_names := VInt 2]> (row_of_id 1));
                    <[error_message output_names := VStr "invalid id"]>
                      (<[response output_names := VInt 2]> (row_of_id 2)) ]))
    ∧
    Forall (λ row, populated (error_message output_names) row = true ∧
                   populated (error_type output_names) row = true ∧
                   populated (error_raw output_names) row = true)
           (set_error output_names (BatchError repr_plain msg)
              <$> [ <[error_message output_names := VStr ""]>
                      (<[response output_names := VInt 2]> (row_of_id 1));
                    <[error_message output_names := VStr "invalid id"]>
                      (<[response output_names := VInt 2]> (row_of_id 2)) ]).
Proof.
  apply (batch_error repr_plain log_batches output_names
           [row_of_id 1; row_of_id 2] (VInt 2) parse_ids).
  - reflexivity.
  - reflexivity.
  - reflexivity.
  - vm_compute. reflexivity.
  - decide_by_computation.
  - decide_by_computation.
Defined.

(** C9: the example of the spec, the futures yielded in two orders. *)
Lemma runs_agree_up_to_row_order_witness :
  ∃ out1 out2,
    run repr_plain log_rows [0; 1; 2] table3 = Return out1 ∧
    run repr_plain log_rows [2; 0; 1] table3 = Return out2 ∧
    columns out2 = columns out1 ∧
    records out2 ≡ₚ records out1 ∧
    ([2; 0; 1] = [0; 1; 2] → out2 = out1).
Proof.
  eexists.
  assert (yield_order (length (units log_rows table3)) [0; 1; 2]) as H1
    by decide_by_computation.
  assert (yield_order (length (units log_rows table3)) [2; 0; 1]) as H2
    by decide_by_computation.
  destruct (runs_agree_up_to_row_order repr_plain log_rows [0; 1; 2]
              [2; 0; 1] table3 _ H1 H2 eq_refl) as (out2 & ? & ? & ? & ?).
  exists out2. by split.
Defined.

(** C9, counterexample: the same table and the same parallelizer, the
    futures yielded in two orders; the two output tables have their rows
    in different orders. *)
Lemma runs_agree_up_to_row_order_counterexample :
  yield_order (length (units log_rows table3)) [0; 1; 2] ∧
  yield_order (length (units log_rows table3)) [2; 0; 1] ∧
  ∃ out1 out2,
    run repr_plain log_rows [0; 1; 2] table3 = Return out1 ∧
    run repr_plain log_rows [2; 0; 1] table3 = Return out2 ∧
    (λ r, r !! "output_response") <$> records out1
    = [Some (VStr "ok-1"); Some (VStr ""); Some (VStr "ok-3")] ∧
    (λ r, r !! "output_response") <$> records out2
    = [Some (VStr "ok-3"); Some (VStr "ok-1"); Some (VStr "")] ∧
    out1 ≠ out2.
Proof.
  split; [decide_by_computation|]. split; [decide_by_computation|].
  eexists _, _. split; [vm_compute; reflexivity|].
  split; [vm_compute; reflexivity|].
  split; [vm_compute; reflexivity|].
  split; [vm_compute; reflexivity|].
  decide_by_computation.
Qed.



(** * The further properties on the examples *)

(** X1: an uncaught [KeyError] on the row of id 2, in log mode. *)
Lemma uncaught_exception_propagates_witness :
  ∃ e',
    run repr_plain (parallelizer_of lookup_unless_2 LOG false None)
      [2; 0; 1] table3 = Raise e' ∧
    ∃ unit',
      unit' ∈ units (parallelizer_of lookup_unless_2 LOG false None) table3
      ∧
      apply_function_and_parse_response repr_plain
        (parallelizer_of lookup_unless_2 LOG false None)
        (get_unique_output_column_names
           (parallelizer_of lookup_unless_2 LOG false None) (columns table3))
        unit'.1 unit'.2
      = Raise e'.
Proof.
  apply (uncaught_exception_propagates repr_plain
           (parallelizer_of lookup_unless_2 LOG false None) [2; 0; 1] table3
           (Some (row_of_id 2), None) (ArgRow (row_of_id 2))
           (KeyError repr_plain "name")).
  - decide_by_computation.
  - decide_by_computation.
  - vm_compute. reflexivity.
  - reflexivity.
  - reflexivity.
  - decide_by_computation.
Defined.

(** X2: batch mode on the table without rows. *)
Lemma empty_table_witness :
  ∃ out,
    run repr_plain log_batches [] table0 = Return out ∧ records out = [].
Proof.
  apply (empty_table repr_plain log_batches [] table0).
  - reflexivity.
  - intros _. unfold sys_maxsize. simpl. lia.
Defined.

(** X3: the columns of the example of the spec, verbose. *)
Lemma output_columns_witness :
  ∃ out,
    run repr_plain log_rows [0; 1; 2] table3 = Return out ∧
    columns out
    = ["id"; "output_response"; "output_error_message"; "output_error_type";
       "output_error_raw"].
Proof.
  eexists. split; [vm_compute; reflexivity|].
  etrans.
  - apply (output_columns repr_plain log_rows [0; 1; 2] table3).
    vm_compute. reflexivity.
  - vm_compute. reflexivity.
Defined.

(** X4: in batch mode the user function of the examples answers a number; the
    response column holds its text. *)
Lemma output_cells_are_text_witness :
  ∃ out r,
    run repr_plain log_batches [1; 0] table3 = Return out ∧
    r ∈ records out ∧
    ∃ s, r !! "output_response" = Some (VStr s).
Proof.
  eexists _, _. split; [vm_compute; reflexivity|].
  split; [apply list_elem_of_here|].
  eapply (output_cells_are_text repr_plain log_batches [1; 0] table3).
  - vm_compute. reflexivity.
  - apply list_elem_of_here.
  - decide_by_computation.
  - decide_by_computation.
Defined.

(** X5: batch size 0. *)
Lemma batch_size_rejected_witness :
  ∃ e,
    run repr_plain (with_batch_size 0 log_batches) [0; 1] table3 = Raise e ∧
    exn_qualname e = "ZeroDivisionError".
Proof.
  apply (batch_size_rejected repr_plain (with_batch_size 0 log_batches)
           [0; 1] table3).
  - reflexivity.
  - done.
Defined.

(** X6: two rows and no column, in log mode. *)
Lemma rows_without_columns_witness :
  run repr_plain log_rows [1; 0] table_no_columns
  = Raise (TypeError repr_plain "'NoneType' object is not iterable").
Proof.
  apply (rows_without_columns repr_plain log_rows [1; 0] table_no_columns).
  - reflexivity.
  - reflexivity.
  - done.
  - decide_by_computation.
Defined.

(** X7: batch size 2 on the 3 rows of the example. *)
Lemma batches_bounded_witness :
  mjoin (unit_rows <$> units log_batches table3) = df_row_generator table3 ∧
  ∀ i unit,
    units log_batches table3 !! i = Some unit →
    ∃ batch,
      unit = (None, Some batch) ∧
      batch ≠ [] ∧
      (Z.of_nat (length batch) ≤ 2)%Z ∧
      (S i < length (units log_batches table3) →
       Z.of_nat (length batch) = 2%Z).
Proof.
  apply (batches_bounded log_batches table3).
  - reflexivity.
  - unfold sys_maxsize. simpl. lia.
Defined.

(** X8: 3 rows in batches of 2 make 2 units. *)
Lemma len_generator_units_witness :
  len_generator repr_plain log_batches table3 = Return 2%Z.
Proof.
  apply (len_generator_units repr_plain log_batches table3).
  - reflexivity.
  - intros _. split; reflexivity.
Defined.

(** X9: a batch of the rows of ids 1 and 3 that the user function rejects. *)
Lemma batch_function_error_witness :
  ∃ output,
    apply_function_and_parse_response repr_plain
      (parallelizer_of reject_batches LOG true (Some parse_ids))
      output_names None (Some [row_of_id 1; row_of_id 3])
    = Return (UBatch output) ∧
    Forall2 (λ (row out : Row),
               out !! "output_response" = Some (VStr "") ∧
               out !! "output_error_message" = Some (VStr "invalid id") ∧
               out !! "output_error_type" = Some (VStr "ValueError") ∧
               out !! "output_error_raw" = Some (VStr "('invalid id',)") ∧
               ∀ c, c ∉ fields output_names → out !! c = row !! c)
            [row_of_id 1; row_of_id 3] output.
Proof.
  apply (batch_function_error repr_plain
           (parallelizer_of reject_batches LOG true (Some parse_ids))
           output_names [row_of_id 1; row_of_id 3] invalid_id).
  - reflexivity.
  - decide_by_computation.
  - reflexivity.
  - reflexivity.
Defined.

(** X10: a parser that sets no error message, [KeyError] not being of the
    catch set. *)
Lemma parser_missing_error_message_witness :
  apply_function_and_parse_response repr_plain
    (parallelizer_of ok_unless_2 LOG true (Some parse_response_only))
    output_names None (Some [row_of_id 1])
  = Raise (KeyError repr_plain "output_error_message").
Proof.
  apply (parser_missing_error_message repr_plain
           (parallelizer_of ok_unless_2 LOG true (Some parse_response_only))
           output_names [row_of_id 1] (VInt 1) parse_response_only
           [<[response output_names := VInt 1]> (row_of_id 1)]).
  - reflexivity.
  - reflexivity.
  - reflexivity.
  - decide_by_computation.
  - reflexivity.
Defined.

(** X11: a batch of the rows of ids 1 and 3: no error message. *)
Lemma batch_parsed_witness :
  apply_function_and_parse_response repr_plain log_batches output_names
    None (Some [row_of_id 1; row_of_id 3])
  = Return
      (UBatch
         [ <[error_message output_names := VStr ""]>
             (<[response output_names := VInt 2]> (row_of_id 1));
           <[error_message output_names := VStr ""]>
             (<[response output_names := VInt 2]> (row_of_id 3)) ]).
Proof.
  apply (batch_parsed repr_plain log_batches output_names
           [row_of_id 1; row_of_id 3] (VInt 2) parse_ids).
  - reflexivity.
  - reflexivity.
  - vm_compute. reflexivity.
  - decide_by_computation.
  - vm_compute. reflexivity.
Defined.

(** X12: the example of the spec with other batch settings. *)
Lemma row_mode_ignores_batch_settings_witness :
  run repr_plain log_rows [2; 0; 1] table3
  = run repr_plain log_rows_other_settings [2; 0; 1] table3.
Proof.
  by apply (row_mode_ignores_batch_settings repr_plain log_rows
              log_rows_other_settings [2; 0; 1] table3).
Defined.

(** X13: the rows of ids 1 and 2 with the user function that answers the empty
    string and raises on id 2: both rows count as errors. *)
Lemma run_summary_witness :
  ∃ out,
    run repr_plain quiet_rows [1; 0] table2 = Return out ∧
    num_error (get_unique_output_column_names quiet_rows (columns table2))
      out = 2 ∧
    num_success table2
      (get_unique_output_column_names quiet_rows (columns table2)) out
    = 0%Z.
Proof.
  apply (run_summary repr_plain quiet_rows [1; 0] table2).
  - reflexivity.
  - reflexivity.
  - done.
  - decide_by_computation.
  - intros r e [i Hi]%list_elem_of_lookup.
    destruct i as [|[|i]]; vm_compute in Hi; try done;
      injection Hi as <-; vm_compute; by intros [= <-].
Defined.


(** X15: the row of [tagged_table]: the list of the column [tags] is copied. *)
Lemma row_result_is_deep_copy_witness :
  ∃ out σ',
    Store.apply_function_and_parse_response repr_plain
      (store_parallelizer_of answer_ok) output_names (Some tagged_row) None
      tagged_store
    = (Return (Store.URow out), σ') ∧
    deep_copy_of tagged_store tagged_row σ' out "tags".
Proof.
  eexists _, _. split; [vm_compute; reflexivity|].
  apply (row_result_is_deep_copy repr_plain (store_parallelizer_of answer_ok)
           output_names tagged_row None tagged_store).
  - intros a σ. done.
  - decide_by_computation.
  - decide_by_computation.
  - vm_compute. reflexivity.
  - decide_by_computation.
Defined.

(** X16: batch mode with batch size 2 on the 3 rows of the example. *)
Lemma run_all_or_nothing_witness :
  is_Return (run repr_plain log_batches [1; 0] table3) = true ↔
  Forall (λ unit,
            is_Return
              (apply_function_and_parse_response repr_plain log_batches
                 (get_unique_output_column_names log_batches
                    (columns table3))
                 unit.1 unit.2) = true)
         (units log_batches table3).
Proof.
  apply (run_all_or_nothing repr_plain log_batches [1; 0] table3).
  - decide_by_computation.
  - intros _. split; [unfold sys_maxsize; simpl; lia|].
    intros parser [= <-]. rewrite output_names_batches.
    apply parse_ids_keeps_rows.
Defined.

(** X17: the raw error column of a record, in batch mode. *)
Lemma output_is_rectangular_witness :
  ∃ out r,
    run repr_plain log_batches [1; 0] table3 = Return out ∧
    r ∈ records out ∧
    (is_Some (r !! "output_error_raw") ↔ "output_error_raw" ∈ columns out).
Proof.
  eexists _, _. split; [vm_compute; reflexivity|].
  split; [apply list_elem_of_here|].
  eapply (output_is_rectangular repr_plain log_batches [1; 0] table3).
  - vm_compute. reflexivity.
  - apply list_elem_of_here.
Defined.
